(** * Contact-form backend: submission pipeline and two-tier persistence

    A shallow embedding of the two server programs of the repository:

    - [src/index.js], the plain server (routes [POST /api/contact] and
      [GET /api/contacts], console output through [console.log]);
    - the instrumented server of [src/unnamed/part_000] (same submission
      route, with request-id and request-logging middleware and the
      [logger] utility), with the service categories of the Mongoose
      schema of [contact.js].

    JavaScript values are modelled as far as the handlers observe them:
    through [ToBoolean] (the [!x] tests), through [ToString] (the argument
    of [RegExp.prototype.test]) and through property lookup.  Strings are
    sequences of code units; the model covers the code units U+0000 to
    U+00FF (one [ascii] each).  Numbers of a request body are the integers.
    Handlers run in a state-and-exception monad over the process state
    ([world]); what the outside does during a request (the wall clock, the
    outcome of a database call, the connection state seen after an [await])
    is an input of the model. *)

From Stdlib Require Import ZArith String Ascii List Bool Lia Arith.
From Stdlib Require Import Permutation Sorted DecimalString DecimalZ.
Import ListNotations.

Set Warnings "-register-all".

Local Open Scope string_scope.
Local Open Scope list_scope.
Local Open Scope Z_scope.

(** ** JavaScript values *)

(** The values [JSON.parse] (or the urlencoded parser) can put in a request
    body, and [undefined] for an absent property. *)
Inductive jsval : Type :=
| VUndefined
| VNull
| VBool (b : bool)
| VNum (z : Z)
| VStr (s : string)
| VArr (items : list jsval)
| VObj (props : list (string * jsval)).

(** A plain object: its own properties, in insertion order. *)
Definition jsobj : Type := list (string * jsval).

(** [o[k]]: the own property, [undefined] when there is none.  (None of
    the names read by the handlers exists on [Object.prototype].) *)
Fixpoint obj_get (o : jsobj) (k : string) : jsval :=
  match o with
  | [] => VUndefined
  | (k', v) :: rest => if String.eqb k' k then v else obj_get rest k
  end.

Fixpoint has_key (o : jsobj) (k : string) : bool :=
  match o with
  | [] => false
  | (k', _) :: rest => String.eqb k' k || has_key rest k
  end.

(** [{ ...o, k: v }]: an existing key keeps its position and takes the new
    value, a new key goes last. *)
Fixpoint obj_set (o : jsobj) (k : string) (v : jsval) : jsobj :=
  match o with
  | [] => [(k, v)]
  | (k', v') :: rest =>
      if String.eqb k' k then (k, v) :: rest else (k', v') :: obj_set rest k v
  end.

(** [ToBoolean]: [!x] is [negb (truthy x)]. *)
Definition truthy (v : jsval) : bool :=
  match v with
  | VUndefined => false
  | VNull => false
  | VBool b => b
  | VNum z => negb (z =? 0)
  | VStr s => negb (String.eqb s "")
  | VArr _ => true
  | VObj _ => true
  end.

(** [Number.prototype.toString] on an integer: its decimal digits (so for
    every integer below 10^21 in absolute value, time values included). *)
Definition number_to_string (z : Z) : string :=
  NilEmpty.string_of_int (Z.to_int z).

(** [ToString].  [None] is the [TypeError] ("Cannot convert object to
    primitive value") raised for an object whose own [toString] property
    shadows [Object.prototype.toString] with a value that cannot be called
    (every value of a parsed body is such).  An array is joined with
    commas, [null] and [undefined] elements giving the empty string. *)
Fixpoint to_string (v : jsval) : option string :=
  match v with
  | VUndefined => Some "undefined"
  | VNull => Some "null"
  | VBool true => Some "true"
  | VBool false => Some "false"
  | VNum z => Some (number_to_string z)
  | VStr s => Some s
  | VArr items =>
      let element (x : jsval) : option string :=
        match x with
        | VUndefined => Some ""
        | VNull => Some ""
        | _ => to_string x
        end in
      (fix join (l : list jsval) : option string :=
         match l with
         | [] => Some ""
         | [x] => element x
         | x :: rest =>
             match element x, join rest with
             | Some s, Some t => Some (s ++ "," ++ t)%string
             | _, _ => None
             end
         end) items
  | VObj props =>
      if has_key props "toString" then None else Some "[object Object]"
  end.

(** ** Regular expressions *)

(** The fragment of the regular expressions used by the handlers: character
    classes, sequence, alternation and iteration, matched against the whole
    input (the patterns are anchored by [^] and [$]). *)
Inductive regex : Type :=
| Fail
| Eps
| Class (p : ascii -> bool)
| Seq (r1 r2 : regex)
| Alt (r1 r2 : regex)
| Star (r : regex).

Definition Plus (r : regex) : regex := Seq r (Star r).
Definition Chr (c : ascii) : regex := Class (Ascii.eqb c).

Fixpoint nullable (r : regex) : bool :=
  match r with
  | Fail => false
  | Eps => true
  | Class _ => false
  | Seq r1 r2 => nullable r1 && nullable r2
  | Alt r1 r2 => nullable r1 || nullable r2
  | Star _ => true
  end.

(** The derivative of [r] by the character [c]. *)
Fixpoint deriv (c : ascii) (r : regex) : regex :=
  match r with
  | Fail => Fail
  | Eps => Fail
  | Class p => if p c then Eps else Fail
  | Seq r1 r2 =>
      Alt (Seq (deriv c r1) r2) (if nullable r1 then deriv c r2 else Fail)
  | Alt r1 r2 => Alt (deriv c r1) (deriv c r2)
  | Star r1 => Seq (deriv c r1) (Star r1)
  end.

Fixpoint matchb (r : regex) (s : list ascii) : bool :=
  match s with
  | [] => nullable r
  | c :: rest => matchb (deriv c r) rest
  end.

(** [r.test(s)] on a string. *)
Definition regex_test (r : regex) (s : string) : bool :=
  matchb r (list_ascii_of_string s).

(** [\s]: white space and line terminators (below U+0100: TAB, LF, VT, FF,
    CR, SP and NBSP). *)
Definition is_whitespace (c : ascii) : bool :=
  let n := nat_of_ascii c in
  (Nat.eqb n 9 || Nat.eqb n 10 || Nat.eqb n 11 || Nat.eqb n 12
   || Nat.eqb n 13 || Nat.eqb n 32 || Nat.eqb n 160)%bool.

(** [[^\s@]] *)
Definition not_space_at (c : ascii) : bool :=
  negb (is_whitespace c || Ascii.eqb c "@").

(** [/^[^\s@]+@[^\s@]+\.[^\s@]+$/] *)
Definition emailRegex : regex :=
  Seq (Plus (Class not_space_at))
    (Seq (Chr "@")
       (Seq (Plus (Class not_space_at))
          (Seq (Chr ".") (Plus (Class not_space_at))))).

(** [emailRegex.test(v)]: the argument is converted with [ToString], which
    may throw. *)
Definition test_value (r : regex) (v : jsval) : option bool :=
  option_map (regex_test r) (to_string v).

(** The language of a regular expression. *)
Inductive Matches : regex -> list ascii -> Prop :=
| MEps : Matches Eps []
| MClass p c : p c = true -> Matches (Class p) [c]
| MSeq r1 r2 s1 s2 :
    Matches r1 s1 -> Matches r2 s2 -> Matches (Seq r1 r2) (s1 ++ s2)
| MAltL r1 r2 s : Matches r1 s -> Matches (Alt r1 r2) s
| MAltR r1 r2 s : Matches r2 s -> Matches (Alt r1 r2) s
| MStarNil r : Matches (Star r) []
| MStarApp r s1 s2 :
    Matches r s1 -> Matches (Star r) s2 -> Matches (Star r) (s1 ++ s2).

(** The shape the specification calls [x@y.z]: three non-empty parts free
    of white space and of ['@'], around one ['@'] and a ['.']. *)
Definition email_shape (s : string) : Prop :=
  exists x y z : list ascii,
    list_ascii_of_string s = x ++ "@"%char :: y ++ "."%char :: z
    /\ x <> [] /\ y <> [] /\ z <> []
    /\ Forall (fun c => not_space_at c = true) x
    /\ Forall (fun c => not_space_at c = true) y
    /\ Forall (fun c => not_space_at c = true) z.

(** ** Stored records, errors, console lines and responses *)

(** A stored submission.  A record of the fallback list is the object
    literal built by the submission handler; a document of the primary
    store follows the schema of [contact.js], which declares no [status]. *)
Record contact : Type := mkContact {
  _id : string;
  name : jsval;
  email : jsval;
  phone : jsval;
  service : jsval;
  message : jsval;
  submittedAt : Z;          (* the time value of the [Date], in ms *)
  status : option string
}.

(** The service categories of the schema ([enum] of [service]). *)
Definition service_enum : list string :=
  [ "Interior Painting"; "Exterior Painting"; "Waterproofing"; "POP Work";
    "Tile Installation"; "Civil Work"; "Carpenter Work" ].

(** An [Error] object, as far as the handlers read it ([message], [stack]). *)
Record js_error : Type := mkError {
  err_message : string;
  err_stack : string
}.

(** [new Error(msg)] (stack frames are not modelled). *)
Definition new_Error (msg : string) : js_error :=
  {| err_message := msg; err_stack := ("Error: " ++ msg)%string |}.

(** The [TypeError] of a failed [ToString]. *)
Definition TypeError_to_primitive : js_error :=
  {| err_message := "Cannot convert object to primitive value";
     err_stack := "TypeError: Cannot convert object to primitive value" |}.

Inductive channel : Type := Out | OutWarn | OutError.

Inductive logarg : Type :=
| AVal (v : jsval)
| AErr (e : js_error).

(** One call of [console.log], [console.warn] or [console.error].  The
    first argument of the [logger] utility,
    [`[${new Date().toISOString()}] [LEVEL] ${message}`], is kept in its
    three parts: [stamp], [level] and [text]; a direct [console] call has no
    stamp and an empty level. *)
Record line : Type := mkLine {
  chan : channel;
  stamp : option Z;
  level : string;
  text : string;
  args : list logarg
}.

(** The argument of [res.json], by shape. *)
Inductive body : Type :=
| Failure (msg : string)
    (* { success: false, message } *)
| FailureDebug (msg : string) (error : string) (requestId : string)
    (* { success: false, message, error, requestId } *)
| Submitted (msg : string) (id : string) (at_ : Z)
    (* { success: true, message, data: { id, submittedAt } } *)
| Listing (data : list contact) (source : string).
    (* { success: true, data, source } *)

Record response : Type := mkResponse {
  statusCode : Z;
  json : body
}.

(** The top-level property names of a response body. *)
Definition body_keys (b : body) : list string :=
  match b with
  | Failure _ => ["success"; "message"]
  | FailureDebug _ _ _ => ["success"; "message"; "error"; "requestId"]
  | Submitted _ _ _ => ["success"; "message"; "data"]
  | Listing _ _ => ["success"; "data"; "source"]
  end.

Definition body_success (b : body) : bool :=
  match b with
  | Failure _ => false
  | FailureDebug _ _ _ => false
  | Submitted _ _ _ => true
  | Listing _ _ => true
  end.

(** ** The process state and the monad of the handlers *)

Inductive mongo_call : Type :=
| CallCreate (name email phone service message : jsval)
| CallFind.

(** The state of the server process and of the primary store:
    [mongoose.connection.readyState] (0 disconnected, 1 connected,
    2 connecting, 3 disconnecting), the module-level [fallbackContacts]
    array, the documents of the [Contact] collection, the calls made on the
    [Contact] model, the console, and the number of clock readings taken. *)
Record world : Type := mkWorld {
  readyState : Z;
  fallbackContacts : list contact;
  mongoDocs : list contact;
  mongoCalls : list mongo_call;
  console : list line;
  ticks : nat
}.

Definition set_readyState (z : Z) (w : world) : world :=
  mkWorld z (fallbackContacts w) (mongoDocs w) (mongoCalls w) (console w)
    (ticks w).
Definition set_fallbackContacts (l : list contact) (w : world) : world :=
  mkWorld (readyState w) l (mongoDocs w) (mongoCalls w) (console w) (ticks w).
Definition set_mongoDocs (l : list contact) (w : world) : world :=
  mkWorld (readyState w) (fallbackContacts w) l (mongoCalls w) (console w)
    (ticks w).
Definition set_mongoCalls (l : list mongo_call) (w : world) : world :=
  mkWorld (readyState w) (fallbackContacts w) (mongoDocs w) l (console w)
    (ticks w).
Definition set_console (l : list line) (w : world) : world :=
  mkWorld (readyState w) (fallbackContacts w) (mongoDocs w) (mongoCalls w) l
    (ticks w).
Definition set_ticks (n : nat) (w : world) : world :=
  mkWorld (readyState w) (fallbackContacts w) (mongoDocs w) (mongoCalls w)
    (console w) n.

(** How a computation completes: normally, or by a thrown error. *)
Inductive completion (A : Type) : Type :=
| Normal (a : A)
| Throw (e : js_error).
Arguments Normal {A} a.
Arguments Throw {A} e.

(** A computation changes the state also when it throws. *)
Definition M (A : Type) : Type := world -> completion A * world.

Definition ret {A} (a : A) : M A := fun w => (Normal a, w).

Definition bind {A B} (c : M A) (k : A -> M B) : M B :=
  fun w =>
    match c w with
    | (Normal a, w') => k a w'
    | (Throw e, w') => (Throw e, w')
    end.

Definition throw {A} (e : js_error) : M A := fun w => (Throw e, w).

(** [try { c } catch (e) { h e }] *)
Definition try_catch {A} (c : M A) (h : js_error -> M A) : M A :=
  fun w =>
    match c w with
    | (Normal a, w') => (Normal a, w')
    | (Throw e, w') => h e w'
    end.

Declare Scope js_scope.
Delimit Scope js_scope with js.
Notation "x <- c ;; k" := (bind c (fun x => k))
  (at level 61, c at next level, right associativity) : js_scope.
Notation "c ;; k" := (bind c (fun _ => k))
  (at level 61, right associativity) : js_scope.
Local Open Scope js_scope.

(** [Array.prototype.sort(cmp)]: the sort is stable, [a] is placed before
    [b] when [cmp a b <= 0] and [a] came first.  (Insertion from the right;
    any stable sort gives the same array for a consistent comparator.) *)
Fixpoint sort_insert {A} (cmp : A -> A -> Z) (x : A) (l : list A) : list A :=
  match l with
  | [] => [x]
  | y :: rest =>
      if cmp x y <=? 0 then x :: y :: rest else y :: sort_insert cmp x rest
  end.

Definition js_sort {A} (cmp : A -> A -> Z) (l : list A) : list A :=
  fold_right (sort_insert cmp) [] l.

(** [(a, b) => new Date(b.submittedAt) - new Date(a.submittedAt)] *)
Definition by_submittedAt_desc (a b : contact) : Z :=
  submittedAt b - submittedAt a.

(** What the primary store does during one [Contact.create]: the document
    it returns or the error it rejects with, and the connection state when
    the [await] resumes. *)
Record create_behaviour : Type := mkCreate {
  create_outcome : contact + js_error;
  ready_after_create : Z
}.

(** The same for one [Contact.find().sort({ submittedAt: -1 })]. *)
Record find_behaviour : Type := mkFind {
  find_outcome : option js_error;      (* [None]: the read succeeds *)
  ready_after_find : Z
}.

(** What the middleware of the instrumented server reads of a request. *)
Record reqinfo : Type := mkReq {
  requestId : string;                  (* the [uuidv4()] drawn for it *)
  ip : jsval;
  userAgent : jsval
}.

(** [{ ...req.body, message: req.body.message ? '[REDACTED]' : undefined }] *)
Definition redacted (req_body : jsobj) : jsobj :=
  obj_set req_body "message"
    (if truthy (obj_get req_body "message") then VStr "[REDACTED]"
     else VUndefined).

Section Server.

(** The wall clock: the successive values of [Date.now()] / [new Date()],
    and the [NODE_ENV] variable of the process ([None] when unset). *)
Variable clock : nat -> Z.
Variable NODE_ENV : option string.

(** *** Primitive operations *)

Definition Date_now : M Z :=
  fun w => (Normal (clock (ticks w)), set_ticks (S (ticks w)) w).

Definition get_readyState : M Z :=
  fun w => (Normal (readyState w), w).

Definition emit (l : line) : M unit :=
  fun w => (Normal tt, set_console (console w ++ [l]) w).

(** [console.log(t, ...a)].  The pictographs that open the console
    messages of [src/index.js] are left out of [t]. *)
Definition console_log (t : string) (a : list logarg) : M unit :=
  emit (mkLine Out None "" t a).

Definition console_error (t : string) (a : list logarg) : M unit :=
  emit (mkLine OutError None "" t a).

(** [fallbackContacts.push(c)] *)
Definition fallbackContacts_push (c : contact) : M unit :=
  fun w => (Normal tt, set_fallbackContacts (fallbackContacts w ++ [c]) w).

Definition fallbackContacts_length : M Z :=
  fun w => (Normal (Z.of_nat (length (fallbackContacts w))), w).

(** [fallbackContacts.sort(...)]: sorts the array in place and returns it. *)
Definition fallbackContacts_sort : M (list contact) :=
  fun w =>
    let sorted := js_sort by_submittedAt_desc (fallbackContacts w) in
    (Normal sorted, set_fallbackContacts sorted w).

(** [await Contact.create({ name, email, phone, service, message })] *)
Definition Contact_create (db : create_behaviour)
    (name email phone service message : jsval) : M contact :=
  fun w =>
    let w1 :=
      set_readyState (ready_after_create db)
        (set_mongoCalls
           (mongoCalls w ++ [CallCreate name email phone service message]) w)
    in
    match create_outcome db with
    | inl doc => (Normal doc, set_mongoDocs (mongoDocs w1 ++ [doc]) w1)
    | inr e => (Throw e, w1)
    end.

(** [await Contact.find().sort({ submittedAt: -1 })]: the documents of
    the collection, latest first (documents of equal time in the order of
    their insertion). *)
Definition Contact_find_sorted (db : find_behaviour) : M (list contact) :=
  fun w =>
    let w1 :=
      set_readyState (ready_after_find db)
        (set_mongoCalls (mongoCalls w ++ [CallFind]) w) in
    match find_outcome db with
    | None => (Normal (js_sort by_submittedAt_desc (mongoDocs w1)), w1)
    | Some e => (Throw e, w1)
    end.

(** [emailRegex.test(email)] *)
Definition RegExp_test (r : regex) (v : jsval) : M bool :=
  match test_value r v with
  | Some b => ret b
  | None => throw TypeError_to_primitive
  end.

Definition respond (code : Z) (b : body) : M response :=
  ret (mkResponse code b).

(** *** The [logger] utility of the instrumented server *)

Definition is_development : bool :=
  match NODE_ENV with
  | Some v => String.eqb v "development"
  | None => false
  end.

Definition logger_info (msg : string) (meta : jsobj) : M unit :=
  t <- Date_now ;;
  emit (mkLine Out (Some t) "INFO" msg [AVal (VObj meta)]).

(** [error ? error.stack || error : ''] for an [Error] object. *)
Definition stack_or_error (error : js_error) : logarg :=
  if String.eqb (err_stack error) "" then AErr error
  else AVal (VStr (err_stack error)).

Definition logger_error (msg : string) (error : js_error) (meta : jsobj)
    : M unit :=
  t <- Date_now ;;
  emit (mkLine OutError (Some t) "ERROR" msg
          [stack_or_error error; AVal (VObj meta)]).

Definition logger_warn (msg : string) (meta : jsobj) : M unit :=
  t <- Date_now ;;
  emit (mkLine OutWarn (Some t) "WARN" msg [AVal (VObj meta)]).

Definition logger_debug (msg : string) (meta : jsobj) : M unit :=
  if is_development then
    t <- Date_now ;;
    emit (mkLine Out (Some t) "DEBUG" msg [AVal (VObj meta)])
  else ret tt.

(** *** [src/index.js] *)

Definition msg_required : string := "Please fill in all required fields.".
Definition msg_email : string := "Please enter a valid email address.".
Definition msg_thanks : string :=
  "Thank you for your message! We will get back to you within 24 hours.".
Definition msg_sorry : string :=
  "Sorry, there was an error submitting your message. Please try again later.".

(** The body of the [try] block of [app.post('/api/contact', ...)]. *)
Definition post_api_contact_try (req_body : jsobj) (db : create_behaviour)
    : M response :=
  let name := obj_get req_body "name" in
  let email := obj_get req_body "email" in
  let phone := obj_get req_body "phone" in
  let service := obj_get req_body "service" in
  let message := obj_get req_body "message" in
  (* Validate required fields *)
  if (negb (truthy name) || negb (truthy email) || negb (truthy service)
      || negb (truthy message))%bool
  then respond 400 (Failure msg_required)
  else
    (* Validate email format *)
    ok <- RegExp_test emailRegex email ;;
    if negb ok then respond 400 (Failure msg_email)
    else
      (* Save to database (with fallback) *)
      savedContact <-
        try_catch
          (state <- get_readyState ;;
           if state =? 1 then
             doc <- Contact_create db name email phone service message ;;
             console_log "Contact saved to MongoDB:" [AVal (VStr (_id doc))] ;;
             ret doc
           else throw (new_Error "MongoDB not connected"))
          (fun dbError =>
             console_log "MongoDB save failed, using fallback storage:"
               [AVal (VStr (err_message dbError))] ;;
             (* Fallback to in-memory storage *)
             now <- Date_now ;;
             date <- Date_now ;;
             let saved :=
               {| _id := number_to_string now;
                  name := name; email := email; phone := phone;
                  service := service; message := message;
                  submittedAt := date; status := Some "new" |} in
             fallbackContacts_push saved ;;
             console_log "Contact saved to fallback storage" [] ;;
             ret saved) ;;
      respond 200
        (Submitted msg_thanks (_id savedContact) (submittedAt savedContact)).

(** [app.post('/api/contact', async (req, res) => { try ... catch ... })] *)
Definition post_api_contact (req_body : jsobj) (db : create_behaviour)
    : M response :=
  try_catch (post_api_contact_try req_body db)
    (fun error =>
       console_error "Contact form submission error:" [AErr error] ;;
       respond 500 (Failure msg_sorry)).

(** [app.get('/api/contacts', ...)]; the response is sent with the default
    status 200. *)
Definition get_api_contacts (db : find_behaviour) : M response :=
  try_catch
    (state <- get_readyState ;;
     contacts <-
       (if state =? 1 then
          (* Try to get from MongoDB *)
          try_catch
            (docs <- Contact_find_sorted db ;;
             console_log "Fetched contacts from MongoDB" [] ;;
             ret docs)
            (fun dbError =>
               console_log "MongoDB fetch failed, using fallback storage" [] ;;
               fallbackContacts_sort)
        else
          (* Use fallback storage *)
          sorted <- fallbackContacts_sort ;;
          console_log "Using fallback storage for contacts" [] ;;
          ret sorted) ;;
     state' <- get_readyState ;;
     respond 200
       (Listing contacts (if state' =? 1 then "mongodb" else "fallback")))
    (fun error =>
       console_error "Error fetching contacts:" [AErr error] ;;
       respond 500 (Failure "Error fetching contacts")).

(** The error-handling middleware of [src/index.js]. *)
Definition error_middleware (err : js_error) : M response :=
  console_error (err_stack err) [] ;;
  respond 500 (Failure "Something went wrong!").

(** The 404 handler of [src/index.js]. *)
Definition not_found : M response :=
  respond 404 (Failure "Route not found").

(** *** The instrumented server ([src/unnamed/part_000]) *)

(** The body of the [try] block of its [app.post('/api/contact', ...)]. *)
Definition post_api_contact_logged_try (rq : reqinfo) (req_body : jsobj)
    (db : create_behaviour) : M response :=
  let requestId := VStr (requestId rq) in
  logger_info "Contact form submission started"
    [("requestId", requestId); ("body", VObj (redacted req_body))] ;;
  let name := obj_get req_body "name" in
  let email := obj_get req_body "email" in
  let phone := obj_get req_body "phone" in
  let service := obj_get req_body "service" in
  let message := obj_get req_body "message" in
  (* Validate required fields *)
  if (negb (truthy name) || negb (truthy email) || negb (truthy service)
      || negb (truthy message))%bool
  then
    logger_warn "Contact form validation failed - missing required fields"
      [("requestId", requestId);
       ("missingFields",
        VObj [("name", VBool (negb (truthy name)));
              ("email", VBool (negb (truthy email)));
              ("service", VBool (negb (truthy service)));
              ("message", VBool (negb (truthy message)))])] ;;
    respond 400 (Failure msg_required)
  else
    (* Validate email format *)
    ok <- RegExp_test emailRegex email ;;
    if negb ok then
      logger_warn "Contact form validation failed - invalid email format"
        [("requestId", requestId); ("email", email)] ;;
      respond 400 (Failure msg_email)
    else
      (* Save to database (with fallback) *)
      savedContact <-
        try_catch
          (state <- get_readyState ;;
           if state =? 1 then
             mongoState <- get_readyState ;;
             logger_debug "Attempting to save contact to MongoDB"
               [("requestId", requestId); ("mongoState", VNum mongoState)] ;;
             doc <- Contact_create db name email phone service message ;;
             logger_info "Contact successfully saved to MongoDB"
               [("requestId", requestId); ("contactId", VStr (_id doc));
                ("name", name); ("email", email); ("service", service)] ;;
             ret doc
           else throw (new_Error "MongoDB not connected"))
          (fun dbError =>
             mongoState <- get_readyState ;;
             logger_warn "MongoDB save failed, using fallback storage"
               [("requestId", requestId);
                ("error", VStr (err_message dbError));
                ("mongoState", VNum mongoState)] ;;
             (* Fallback to in-memory storage *)
             now <- Date_now ;;
             date <- Date_now ;;
             let saved :=
               {| _id := number_to_string now;
                  name := name; email := email; phone := phone;
                  service := service; message := message;
                  submittedAt := date; status := Some "new" |} in
             fallbackContacts_push saved ;;
             fallbackCount <- fallbackContacts_length ;;
             logger_info "Contact saved to fallback storage"
               [("requestId", requestId); ("contactId", VStr (_id saved));
                ("fallbackCount", VNum fallbackCount)] ;;
             ret saved) ;;
      logger_info "Contact form submission completed successfully"
        [("requestId", requestId); ("contactId", VStr (_id savedContact));
         ("name", name); ("email", email); ("service", service)] ;;
      respond 200
        (Submitted msg_thanks (_id savedContact) (submittedAt savedContact)).

Definition post_api_contact_logged (rq : reqinfo) (req_body : jsobj)
    (db : create_behaviour) : M response :=
  try_catch (post_api_contact_logged_try rq req_body db)
    (fun error =>
       logger_error "Contact form submission failed" error
         [("requestId", VStr (requestId rq));
          ("body", VObj (redacted req_body))] ;;
       respond 500 (Failure msg_sorry)).

(** [req.requestId || 'unknown'] *)
Definition requestId_or_unknown (rq : reqinfo) : string :=
  if String.eqb (requestId rq) "" then "unknown" else requestId rq.

(** The "enhanced" error-handling middleware. *)
Definition error_middleware_logged (rq : reqinfo) (method url : string)
    (err : js_error) : M response :=
  let requestId := requestId_or_unknown rq in
  logger_error "Unhandled error occurred" err
    [("requestId", VStr requestId); ("method", VStr method);
     ("url", VStr url); ("ip", ip rq); ("userAgent", userAgent rq);
     ("stack", VStr (err_stack err))] ;;
  (* Don't expose internal errors in production *)
  if is_development then
    respond 500
      (FailureDebug "Something went wrong!" (err_message err) requestId)
  else respond 500 (Failure "Something went wrong!").

(** The 404 handler of the instrumented server. *)
Definition not_found_logged (rq : reqinfo) (method url : string)
    : M response :=
  logger_warn "Route not found"
    [("requestId", VStr (requestId rq)); ("method", VStr method);
     ("url", VStr url); ("ip", ip rq)] ;;
  respond 404 (Failure "Route not found").

(** The request-id and request-logging middleware around a route: the
    start time is read, the request is logged, and when the response has
    been sent (['finish']) its status and duration are logged. *)
Definition with_request_logging (rq : reqinfo) (method url : string)
    (route : M response) : M response :=
  startTime <- Date_now ;;
  logger_info "Incoming request"
    [("requestId", VStr (requestId rq)); ("method", VStr method);
     ("url", VStr url); ("ip", ip rq); ("userAgent", userAgent rq)] ;;
  res <- route ;;
  finished <- Date_now ;;
  logger_info "Request completed"
    [("requestId", VStr (requestId rq)); ("method", VStr method);
     ("url", VStr url); ("statusCode", VNum (statusCode res));
     ("duration",
      VStr (number_to_string (finished - startTime) ++ "ms")%string)] ;;
  ret res.

(** *** Requests and runs *)

Inductive server : Type :=
| PlainServer          (* src/index.js *)
| LoggedServer.        (* the instrumented server *)

(** A request with what the outside does while it is served.  [Unparsable]
    is a request whose body the body parser rejects with [e]: Express hands
    it to the error-handling middleware. *)
Inductive request : Type :=
| Submit (rq : reqinfo) (req_body : jsobj) (db : create_behaviour)
| ListAll (rq : reqinfo) (db : find_behaviour)
| Unparsable (rq : reqinfo) (method url : string) (e : js_error).

(** The submission route of each server: its [try] block and the whole
    handler; and the error-handling middleware of each. *)
Definition submission_try (srv : server) (rq : reqinfo) (req_body : jsobj)
    (db : create_behaviour) : M response :=
  match srv with
  | PlainServer => post_api_contact_try req_body db
  | LoggedServer => post_api_contact_logged_try rq req_body db
  end.

Definition submission_handler (srv : server) (rq : reqinfo)
    (req_body : jsobj) (db : create_behaviour) : M response :=
  match srv with
  | PlainServer => post_api_contact req_body db
  | LoggedServer => post_api_contact_logged rq req_body db
  end.

Definition error_handler (srv : server) (rq : reqinfo) (method url : string)
    (err : js_error) : M response :=
  match srv with
  | PlainServer => error_middleware err
  | LoggedServer => error_middleware_logged rq method url err
  end.

(** The middleware chain of each server around a route. *)
Definition through_middleware (srv : server) (rq : reqinfo)
    (method url : string) (route : M response) : M response :=
  match srv with
  | PlainServer => route
  | LoggedServer => with_request_logging rq method url route
  end.

Definition handle (srv : server) (r : request) : M response :=
  match r with
  | Submit rq req_body db =>
      through_middleware srv rq "POST" "/api/contact"
        (submission_handler srv rq req_body db)
  | ListAll rq db =>
      through_middleware srv rq "GET" "/api/contacts"
        match srv with
        | PlainServer => get_api_contacts db
        | LoggedServer =>
            (* this server has no such route: the request reaches
               [app.use('*', ...)], inside which Express has stripped the
               matched path from [req.url] *)
            not_found_logged rq "GET" "/"
        end
  | Unparsable rq method url e =>
      through_middleware srv rq method url (error_handler srv rq method url e)
  end.

(** What happens to the process: a request is served, or the connection to
    the primary store changes state. *)
Inductive event : Type :=
| Request (r : request)
| Connection (state : Z).

Definition step (srv : server) (ev : event) (w : world) : world :=
  match ev with
  | Request r => snd (handle srv r w)
  | Connection state => set_readyState state w
  end.

Definition run (srv : server) (evs : list event) (w : world) : world :=
  fold_left (fun w ev => step srv ev w) evs w.

(** The records an event appends to the fallback list: those beyond its
    former length. *)
Definition appended (srv : server) (ev : event) (w : world) : list contact :=
  skipn (length (fallbackContacts w)) (fallbackContacts (step srv ev w)).

(** The records appended during a run, in the order of their insertion. *)
Fixpoint insertions (srv : server) (evs : list event) (w : world)
    : list contact :=
  match evs with
  | [] => []
  | ev :: rest => appended srv ev w ++ insertions srv rest (step srv ev w)
  end.

End Server.

(** ** Notions used by the statements *)

(** The upfront checks of the submission handlers pass: the four required
    fields are truthy and the email passes [emailRegex]. *)
Definition required_present (req_body : jsobj) : bool :=
  (truthy (obj_get req_body "name") && truthy (obj_get req_body "email")
   && truthy (obj_get req_body "service")
   && truthy (obj_get req_body "message"))%bool.

Definition passes_upfront_checks (req_body : jsobj) : Prop :=
  required_present req_body = true
  /\ test_value emailRegex (obj_get req_body "email") = Some true.

(** Neither tier of the store is touched between two states: no call on
    the [Contact] model, same documents, same fallback list. *)
Definition store_untouched (w w' : world) : Prop :=
  mongoCalls w' = mongoCalls w
  /\ mongoDocs w' = mongoDocs w
  /\ fallbackContacts w' = fallbackContacts w.

(** The fallback record built for a body from two clock readings. *)
Definition fallback_record (req_body : jsobj) (now date : Z) : contact :=
  {| _id := number_to_string now;
     name := obj_get req_body "name";
     email := obj_get req_body "email";
     phone := obj_get req_body "phone";
     service := obj_get req_body "service";
     message := obj_get req_body "message";
     submittedAt := date;
     status := Some "new" |}.

(** The lines a request adds to the console. *)
Definition new_lines (w w' : world) : list line :=
  skipn (length (console w)) (console w').

(** The primary write of a submission is not attempted or fails. *)
Definition primary_unavailable (w : world) (db : create_behaviour) : Prop :=
  readyState w <> 1 \/ exists e, create_outcome db = inr e.

(** A listing is served from the fallback list. *)
Definition served_from_fallback (w : world) (db : find_behaviour) : Prop :=
  readyState w <> 1 \/ exists e, find_outcome db = Some e.

(** Descending [submittedAt] order. *)
Definition descending (l : list contact) : Prop :=
  StronglySorted (fun a b => submittedAt a >= submittedAt b) l.

(** Ascending (non-decreasing) [submittedAt] order. *)
Definition ascending (l : list contact) : Prop :=
  StronglySorted (fun a b => submittedAt a <= submittedAt b) l.

(** The [body] property of the meta object of a logger line, if any. *)
Definition line_body (l : line) : option jsval :=
  match args l with
  | [AVal (VObj meta)] =>
      if has_key meta "body" then Some (obj_get meta "body") else None
  | [_; AVal (VObj meta)] =>
      if has_key meta "body" then Some (obj_get meta "body") else None
  | _ => None
  end.

(** The bodies logged by the lines a request adds to the console. *)
Fixpoint logged_bodies (ls : list line) : list jsval :=
  match ls with
  | [] => []
  | l :: rest =>
      match line_body l with
      | Some b => b :: logged_bodies rest
      | None => logged_bodies rest
      end
  end.

(** Two bodies are the same object but for the value of [message]. *)
Definition same_but_message (b1 b2 : jsobj) : Prop :=
  Forall2
    (fun p q => fst p = fst q /\ (fst p <> "message" -> snd p = snd q))
    b1 b2.

(** The keys of an object are distinct, as in every JavaScript object. *)
Definition well_formed (o : jsobj) : Prop := NoDup (map fst o).

(** Records built by the fallback branch from successive pairs of clock
    readings, the first pair not before reading number [n]. *)
Inductive stamped (clock : nat -> Z) (n : nat) : list contact -> Prop :=
| stamped_nil : stamped clock n []
| stamped_cons req_body k rest :
    (n <= k)%nat ->
    stamped clock (S (S k)) rest ->
    stamped clock n
      (fallback_record req_body (clock k) (clock (S k)) :: rest).

(** Every event of a run is a submission that passes the upfront checks
    and finds the primary store unavailable: a save on the fallback tier. *)
Fixpoint all_fallback_saves (clock : nat -> Z) (NODE_ENV : option string)
    (srv : server) (evs : list event) (w : world) : Prop :=
  match evs with
  | [] => True
  | ev :: rest =>
      (exists rq req_body db,
          ev = Request (Submit rq req_body db)
          /\ passes_upfront_checks req_body
          /\ primary_unavailable w db)
      /\ all_fallback_saves clock NODE_ENV srv rest
           (step clock NODE_ENV srv ev w)
  end.

(** The wall clock never steps back. *)
Definition clock_monotone (clock : nat -> Z) : Prop :=
  forall i j : nat, (i <= j)%nat -> clock i <= clock j.

(** The bodies of the submissions of a run, in order. *)
Fixpoint submitted_bodies (evs : list event) : list jsobj :=
  match evs with
  | [] => []
  | Request (Submit _ req_body _) :: rest => req_body :: submitted_bodies rest
  | _ :: rest => submitted_bodies rest
  end.

(** The fallback records of the bodies [bs] when the save of the i-th body
    takes the reading number [k_i] of the clock for [Date.now()] and the
    next reading for [new Date()]. *)
Fixpoint records_at (clock : nat -> Z) (bs : list jsobj) (ks : list nat)
    : list contact :=
  match bs, ks with
  | req_body :: bs', k :: ks' =>
      fallback_record req_body (clock k) (clock (S k))
        :: records_at clock bs' ks'
  | _, _ => []
  end.

(** ** Concrete requests used as examples *)

(** Scenario A of the specification. *)
Definition body_A : jsobj :=
  [ ("name", VStr "Jo"); ("email", VStr "jo@x.com");
    ("service", VStr "Civil Work");
    ("message", VStr "please call me back soon") ].

Definition rq_1 : reqinfo := mkReq "req-1" (VStr "::1") (VStr "curl/8.0").

(** A process that has just started: connection not established, both
    stores empty. *)
Definition world_0 : world := mkWorld 0 [] [] [] [] 0.

(** The same with the connection established. *)
Definition world_connected : world := mkWorld 1 [] [] [] [] 0.

(** A clock that advances by one millisecond at each reading. *)
Definition clock_ms (n : nat) : Z := 1700000000000 + Z.of_nat n.

(** Two requests served within the same millisecond. *)
Definition clock_same_ms (n : nat) : Z := 1700000000000.

(** A clock that advances by one millisecond every two readings: on the
    plain server the two readings of a save coincide, and each save falls
    in its own millisecond. *)
Definition clock_per_save (n : nat) : Z :=
  1700000000000 + Z.of_nat (Nat.div2 n).

(** A wall clock that is set back by one hour after its second reading. *)
Definition clock_backwards (n : nat) : Z :=
  if (n <? 2)%nat then 1700000000000 + Z.of_nat n
  else 1699996400000 + Z.of_nat n.

Definition no_primary : create_behaviour :=
  mkCreate (inr (new_Error "unreachable")) 0.

(** The primary store rejects the write but the connection stays up. *)
Definition rejecting_primary : create_behaviour :=
  mkCreate (inr (new_Error "Contact validation failed")) 1.

(** Scenario C: no message. *)
Definition body_C : jsobj :=
  [ ("name", VStr "Jo"); ("email", VStr "jo@x.com");
    ("service", VStr "Civil Work") ].

(** Scenario D: an email without ['@']. *)
Definition body_D : jsobj := obj_set body_A "email" (VStr "not-an-email").

(** Scenario B: a service outside the categories of the schema. *)
Definition body_B : jsobj := obj_set body_A "service" (VStr "Plumbing").

(** A JSON body whose email is the object [{"toString": 1}]. *)
Definition body_object_email : jsobj :=
  obj_set body_A "email" (VObj [("toString", VNum 1)]).

(** A JSON body whose email is the empty object [{}]. *)
Definition body_empty_object_email : jsobj :=
  obj_set body_A "email" (VObj []).

(** The primary store accepts the write and returns this document. *)
Definition accepting_primary : create_behaviour :=
  mkCreate
    (inl (mkContact "65a0c0ffee0123456789abce" (VStr "Jo") (VStr "jo@x.com")
            VUndefined (VStr "Plumbing") (VStr "please call me back soon")
            1700000000007 None)) 1.

(** The same submission as scenario A with another message. *)
Definition body_A' : jsobj :=
  obj_set body_A "message" (VStr "my roof leaks, my number is 555 0100").

Definition record_at (t : Z) : contact :=
  fallback_record body_A t t.

(** A fallback list in insertion order, hence ascending. *)
Definition world_two_saved : world :=
  mkWorld 0 [record_at 1700000000000; record_at 1700000000500] [] [] [] 0.

(** A connected process with one record in each tier. *)
Definition world_both_tiers : world :=
  mkWorld 1 [record_at 1700000000000]
    [mkContact "65a0c0ffee0123456789abcd" (VStr "Ann") (VStr "ann@x.org") VUndefined
       (VStr "Waterproofing") (VStr "the terrace leaks") 1700000000900 None]
    [] [] 0.

Definition read_ok : find_behaviour := mkFind None 1.
Definition read_fails : find_behaviour :=
  mkFind (Some (new_Error "operation timed out")) 1.

(** Three, and two, submissions in a row while the primary store is down. *)
Definition three_saves : list event :=
  [ Request (Submit rq_1 body_A no_primary);
    Request (Submit rq_1 body_B no_primary);
    Request (Submit rq_1 body_A' no_primary) ].

Definition two_saves : list event :=
  [ Request (Submit rq_1 body_A no_primary);
    Request (Submit rq_1 body_B no_primary) ].

(** ** The validators of the schema ([contact.js]) *)

(** [\d], [[1-9]] and [\w]. *)
Definition is_digit (c : ascii) : bool :=
  let n := nat_of_ascii c in ((48 <=? n) && (n <=? 57))%nat.

Definition is_nonzero_digit (c : ascii) : bool :=
  let n := nat_of_ascii c in ((49 <=? n) && (n <=? 57))%nat.

Definition is_word (c : ascii) : bool :=
  let n := nat_of_ascii c in
  (((48 <=? n) && (n <=? 57)) || ((65 <=? n) && (n <=? 90))
   || ((97 <=? n) && (n <=? 122)) || (n =? 95))%nat.

(** [[.-]] *)
Definition is_dot_or_dash (c : ascii) : bool :=
  (Ascii.eqb c "." || Ascii.eqb c "-")%bool.

(** [r?] and [r{0,n}] *)
Definition Opt (r : regex) : regex := Alt Eps r.

Fixpoint UpTo (n : nat) (r : regex) : regex :=
  match n with
  | O => Eps
  | S m => Opt (Seq r (UpTo m r))
  end.

(** [\w+([.-]?\w+)*] *)
Definition word_run : regex :=
  Seq (Plus (Class is_word))
    (Star (Seq (Opt (Class is_dot_or_dash)) (Plus (Class is_word)))).

(** [\.\w{2,3}] *)
Definition dot_label : regex :=
  Seq (Chr ".")
    (Seq (Class is_word) (Seq (Class is_word) (Opt (Class is_word)))).

(** The [match] of the [email] path:
    [/^\w+([.-]?\w+)*@\w+([.-]?\w+)*(\.\w{2,3})+$/] *)
Definition schemaEmailRegex : regex :=
  Seq word_run (Seq (Chr "@") (Seq word_run (Plus dot_label))).

(** [/^[\+]?[1-9][\d]{0,15}$/] *)
Definition phoneRegex : regex :=
  Seq (Opt (Chr "+"))
    (Seq (Class is_nonzero_digit) (UpTo 15 (Class is_digit))).

(** The [validator] of the [phone] path:
    [function(v) { return !v || /^[\+]?[1-9][\d]{0,15}$/.test(v); }] *)
Definition phone_validator (v : jsval) : option bool :=
  if negb (truthy v) then Some true else test_value phoneRegex v.

(** ** [String.prototype.replace] with a pattern *)

(** The length of the longest prefix of [s] that [r] matches.  For a
    pattern whose only choice is one greedy iteration, as the one below,
    this is the match a backtracking matcher returns at that position. *)
Fixpoint longest_match (r : regex) (s : list ascii) : option nat :=
  match s with
  | [] => if nullable r then Some O else None
  | c :: rest =>
      match longest_match (deriv c r) rest with
      | Some n => Some (S n)
      | None => if nullable r then Some O else None
      end
  end.

(** [s.replace(r, by)] for a pattern without the [g] flag and a
    replacement without [$]: the leftmost match is replaced. *)
Fixpoint replace_first (r : regex) (by_ : list ascii) (s : list ascii)
    : list ascii :=
  match s with
  | [] =>
      match longest_match r [] with
      | Some _ => by_
      | None => []
      end
  | c :: rest =>
      match longest_match r s with
      | Some n => by_ ++ skipn n s
      | None => c :: replace_first r by_ rest
      end
  end.

Definition String_replace (s : string) (r : regex) (by_ : string) : string :=
  string_of_list_ascii
    (replace_first r (list_ascii_of_string by_) (list_ascii_of_string s)).

(** [.]: any character but a line terminator (below U+0100: LF and CR). *)
Definition is_any_char (c : ascii) : bool :=
  let n := nat_of_ascii c in negb ((n =? 10) || (n =? 13))%nat.

(** [/\/\/.*@/] *)
Definition credentialsRegex : regex :=
  Seq (Chr "/") (Seq (Chr "/") (Seq (Star (Class is_any_char)) (Chr "@"))).

(** [mongoURI.replace(/\/\/.*@/, '//***:***@')] ("Hide credentials in
    logs"). *)
Definition hide_credentials (mongoURI : string) : string :=
  String_replace mongoURI credentialsRegex "//***:***@".

(** ** Connecting to the primary store, and the status routes *)



Definition default_mongoURI : string :=
  "mongodb://localhost:27017/paint-contractor".


(** The bodies of [GET /] and [GET /health] of [src/index.js]; the
    timestamp is kept as the time value of the [Date]. *)
Record root_report : Type := mkRoot {
  root_message : string;
  root_status : string;
  root_version : string;
  root_mongodb : string
}.

Record health_report : Type := mkHealth {
  health_status : string;
  health_timestamp : Z;
  health_mongodb : string
}.

Section Bootstrap.

Variable clock : nat -> Z.
Variable NODE_ENV : option string.




(** [mongoose.connection.readyState === 1 ? 'connected' : 'disconnected'] *)
Definition mongodb_status : M string :=
  state <- get_readyState ;;
  ret (if state =? 1 then "connected" else "disconnected").

(** [app.get('/', ...)] of [src/index.js] *)
Definition get_root : M root_report :=
  mongodb <- mongodb_status ;;
  ret (mkRoot "Apna Contractor API Server" "running" "1.0.0" mongodb).

(** [app.get('/health', ...)] of [src/index.js] *)
Definition get_health : M health_report :=
  now <- Date_now clock ;;
  mongodb <- mongodb_status ;;
  ret (mkHealth "OK" now mongodb).

End Bootstrap.

(** ** Further notions used by the statements *)

(** The characters a string the schema accepts as email is made of. *)
Definition is_schema_email_char (c : ascii) : bool :=
  (is_word c || is_dot_or_dash c || Ascii.eqb c "@")%bool.

(** The values of the property [k] in the meta objects of the lines. *)
Fixpoint logged_values (k : string) (ls : list line) : list jsval :=
  match ls with
  | [] => []
  | l :: rest =>
      match args l with
      | [AVal (VObj meta)] | [_; AVal (VObj meta)] =>
          if has_key meta k then obj_get meta k :: logged_values k rest
          else logged_values k rest
      | _ => logged_values k rest
      end
  end.

(** The characters of a label: a word character, a dot or a dash. *)
Definition label_char (c : ascii) : Prop :=
  (is_word c || is_dot_or_dash c)%bool = true.

(** An optional ['+'], a digit from 1 to 9 and at most fifteen digits. *)
Definition phone_shape (s : string) : Prop :=
  exists sign d ds,
    list_ascii_of_string s = sign ++ d :: ds
    /\ (sign = [] \/ sign = ["+"%char])
    /\ is_nonzero_digit d = true
    /\ Forall (fun c => is_digit c = true) ds
    /\ (length ds <= 15)%nat.

(** The status with which a submission is answered, read off its body. *)
Definition submission_status (req_body : jsobj) : Z :=
  if required_present req_body then
    match test_value emailRegex (obj_get req_body "email") with
    | Some true => 200
    | Some false => 400
    | None => 500
    end
  else 400.

(** The [Contact.create] call of a submission. *)
Definition create_call (req_body : jsobj) : mongo_call :=
  CallCreate (obj_get req_body "name") (obj_get req_body "email")
    (obj_get req_body "phone") (obj_get req_body "service")
    (obj_get req_body "message").

(** The records of a list whose [submittedAt] is [t], in order. *)
Definition saved_at (t : Z) (l : list contact) : list contact :=
  filter (fun c => submittedAt c =? t) l.

(** What the middleware reads of a request. *)
Definition request_info (r : request) : reqinfo :=
  match r with
  | Submit rq _ _ => rq
  | ListAll rq _ => rq
  | Unparsable rq _ _ _ => rq
  end.

(** * Properties *)

(** ** The matcher decides the language *)

Lemma nullable_Matches (r : regex) : nullable r = true <-> Matches r [].
Proof.
  induction r; simpl; split; intro H.
  - discriminate.
  - inversion H.
  - constructor.
  - reflexivity.
  - discriminate.
  - inversion H.
  - apply andb_true_iff in H as [H1 H2].
    change (@nil ascii) with (@nil ascii ++ []).
    constructor; [apply IHr1 | apply IHr2]; assumption.
  - inversion H as [| | ? ? s1 s2 M1 M2 | | | |]; subst.
    match goal with E : _ ++ _ = [] |- _ =>
      apply app_eq_nil in E as [-> ->] end.
    apply andb_true_iff; split; [apply IHr1 | apply IHr2]; assumption.
  - apply orb_true_iff in H as [H | H];
      [apply MAltL, IHr1 | apply MAltR, IHr2]; assumption.
  - apply orb_true_iff.
    inversion H; subst; [left; apply IHr1 | right; apply IHr2]; assumption.
  - constructor.
  - reflexivity.
Qed.

Lemma Matches_Star_cons (r : regex) (c : ascii) (s : list ascii) :
  Matches (Star r) (c :: s) ->
  exists s1 s2, s = s1 ++ s2 /\ Matches r (c :: s1) /\ Matches (Star r) s2.
Proof.
  intro H.
  remember (Star r) as r' eqn:Er.
  remember (c :: s) as t eqn:Et.
  revert s Et.
  induction H as [| | | | | | r0 s1 s2 H1 _ H2 IH2]; intros s0 Et;
    try discriminate.
  injection Er as ->.
  destruct s1 as [| c1 s1].
  - simpl in Et. apply IH2; [reflexivity | assumption].
  - simpl in Et. injection Et as -> <-.
    exists s1, s2. repeat split; assumption.
Qed.

Lemma deriv_Matches (r : regex) :
  forall c s, Matches (deriv c r) s <-> Matches r (c :: s).
Proof.
  induction r; intros c s; simpl; split; intro H.
  - inversion H.
  - inversion H.
  - inversion H.
  - inversion H.
  - destruct (p c) eqn:Ep; inversion H; subst. constructor; assumption.
  - inversion H as [| ? ? Hp | | | | |]; subst. rewrite Hp. constructor.
  - inversion H as [| | | ? ? ? HL | ? ? ? HR | |]; subst.
    + inversion HL as [| | ? ? s1 s2 M1 M2 | | | |]; subst.
      change (c :: s1 ++ s2) with ((c :: s1) ++ s2).
      constructor; [apply IHr1 |]; assumption.
    + destruct (nullable r1) eqn:En; [| inversion HR].
      change (c :: s) with ([] ++ c :: s).
      constructor; [apply nullable_Matches | apply IHr2]; assumption.
  - inversion H as [| | ? ? s1 s2 M1 M2 | | | |]; subst.
    destruct s1 as [| c1 s1];
      match goal with E : _ ++ _ = _ :: _ |- _ => simpl in E end.
    + subst s2. apply MAltR.
      apply nullable_Matches in M1. rewrite M1. apply IHr2; assumption.
    + match goal with E : _ :: _ = _ :: _ |- _ => injection E as -> <- end.
      apply MAltL. constructor; [apply IHr1 |]; assumption.
  - inversion H; subst; [apply MAltL, IHr1 | apply MAltR, IHr2]; assumption.
  - inversion H; subst; [apply MAltL, IHr1 | apply MAltR, IHr2]; assumption.
  - inversion H as [| | ? ? s1 s2 M1 M2 | | | |]; subst.
    change (c :: s1 ++ s2) with ((c :: s1) ++ s2).
    constructor; [apply IHr |]; assumption.
  - apply Matches_Star_cons in H as (s1 & s2 & -> & M1 & M2).
    constructor; [apply IHr |]; assumption.
Qed.

Lemma matchb_Matches (s : list ascii) :
  forall r, matchb r s = true <-> Matches r s.
Proof.
  induction s as [| c s IH]; intro r; simpl.
  - apply nullable_Matches.
  - rewrite IH. apply deriv_Matches.
Qed.

(** ** The email pattern is the [x@y.z] shape *)

Lemma Matches_Star_Class (p : ascii -> bool) (s : list ascii) :
  Matches (Star (Class p)) s <-> Forall (fun c => p c = true) s.
Proof.
  split.
  - intro H. remember (Star (Class p)) as r eqn:Er.
    induction H as [| | | | | | r0 s1 s2 H1 _ H2 IH2]; try discriminate.
    + constructor.
    + injection Er as ->. inversion H1; subst.
      constructor; [assumption | apply IH2; reflexivity].
  - induction 1 as [| c s Hc _ IH].
    + constructor.
    + change (c :: s) with ([c] ++ s).
      constructor; [constructor |]; assumption.
Qed.

Lemma Matches_Plus_Class (p : ascii -> bool) (s : list ascii) :
  Matches (Plus (Class p)) s <-> s <> [] /\ Forall (fun c => p c = true) s.
Proof.
  unfold Plus. split.
  - intro H. inversion H as [| | ? ? s1 s2 M1 M2 | | | |]; subst.
    inversion M1; subst. apply Matches_Star_Class in M2.
    split; [discriminate | constructor; assumption].
  - intros [Hne Hall]. destruct s as [| c s]; [contradiction |].
    inversion Hall; subst.
    change (c :: s) with ([c] ++ s).
    constructor; [constructor | apply Matches_Star_Class]; assumption.
Qed.

Lemma Matches_Chr (c : ascii) (s : list ascii) :
  Matches (Chr c) s <-> s = [c].
Proof.
  unfold Chr. split.
  - intro H. inversion H; subst.
    match goal with E : Ascii.eqb _ _ = true |- _ =>
      apply Ascii.eqb_eq in E; subst end.
    reflexivity.
  - intros ->. constructor. apply Ascii.eqb_refl.
Qed.

Lemma emailRegex_shape (s : string) :
  regex_test emailRegex s = true <-> email_shape s.
Proof.
  unfold regex_test, email_shape. rewrite matchb_Matches.
  unfold emailRegex. split.
  - intro H.
    inversion H as [| | ? ? x t1 Mx M1 | | | |]; subst.
    inversion M1 as [| | ? ? a t2 Ma M2 | | | |]; subst.
    inversion M2 as [| | ? ? y t3 My M3 | | | |]; subst.
    inversion M3 as [| | ? ? d z Md Mz | | | |]; subst.
    apply Matches_Chr in Ma, Md. subst a d.
    apply Matches_Plus_Class in Mx as [? ?], My as [? ?], Mz as [? ?].
    exists x, y, z. simpl.
    repeat split; assumption.
  - intros (x & y & z & E & Hx & Hy & Hz & Ax & Ay & Az).
    rewrite E.
    change (x ++ "@"%char :: y ++ "."%char :: z)
      with (x ++ ["@"%char] ++ y ++ ["."%char] ++ z).
    repeat constructor; try (apply Matches_Chr; reflexivity);
      apply Matches_Plus_Class; split; assumption.
Qed.

(** ** Running the handlers *)

Lemma missing_required (a b c d : bool) :
  (negb a || negb b || negb c || negb d)%bool = negb (a && b && c && d).
Proof. destruct a, b, c, d; reflexivity. Qed.

Arguments number_to_string : simpl never.
Arguments test_value : simpl never.
Arguments js_sort : simpl never.
Arguments redacted : simpl never.

(** Unfolds a handler down to the primitive operations and evaluates it. *)
Ltac unfold_handlers :=
  unfold handle, through_middleware, submission_handler, submission_try,
    error_handler, with_request_logging,
    post_api_contact, post_api_contact_try,
    post_api_contact_logged, post_api_contact_logged_try,
    get_api_contacts, error_middleware, error_middleware_logged,
    not_found, not_found_logged;
  try (rewrite missing_required;
       match goal with
       | |- context [negb (truthy (obj_get ?b "name") && _ && _ && _)] =>
           fold (required_present b)
       end).

Ltac unfold_monad :=
  unfold RegExp_test, logger_info, logger_warn, logger_error, logger_debug,
    console_log, console_error, emit, respond, fallbackContacts_push,
    fallbackContacts_length, fallbackContacts_sort, Contact_create,
    Contact_find_sorted, get_readyState, Date_now,
    bind, try_catch, ret, throw.

Section Handlers.

Variable clock : nat -> Z.
Variable NODE_ENV : option string.


Lemma submit_missing srv rq b db w :
  required_present b = false ->
  exists w',
    handle clock NODE_ENV srv (Submit rq b db) w
      = (Normal (mkResponse 400 (Failure msg_required)), w')
    /\ store_untouched w w'
    /\ readyState w' = readyState w
    /\ (ticks w <= ticks w')%nat.
Proof.
  intro Hreq. destruct srv; unfold_handlers; rewrite Hreq; unfold_monad; cbn.
  - eexists; split; [reflexivity |]. unfold store_untouched; cbn. auto.
  - eexists; split; [reflexivity |]. unfold store_untouched; cbn.
    repeat split; lia.
Qed.

Lemma submit_bad_email srv rq b db w :
  required_present b = true ->
  test_value emailRegex (obj_get b "email") = Some false ->
  exists w',
    handle clock NODE_ENV srv (Submit rq b db) w
      = (Normal (mkResponse 400 (Failure msg_email)), w')
    /\ store_untouched w w'
    /\ readyState w' = readyState w
    /\ (ticks w <= ticks w')%nat.
Proof.
  intros Hreq Hmail.
  destruct srv; unfold_handlers; rewrite Hreq; unfold_monad; rewrite Hmail;
    cbn.
  - eexists; split; [reflexivity |]. unfold store_untouched; cbn. auto.
  - eexists; split; [reflexivity |]. unfold store_untouched; cbn.
    repeat split; lia.
Qed.

Lemma submit_throws srv rq b db w :
  required_present b = true ->
  test_value emailRegex (obj_get b "email") = None ->
  exists w',
    handle clock NODE_ENV srv (Submit rq b db) w
      = (Normal (mkResponse 500 (Failure msg_sorry)), w')
    /\ store_untouched w w'
    /\ readyState w' = readyState w
    /\ (ticks w <= ticks w')%nat.
Proof.
  intros Hreq Hmail.
  destruct srv; unfold_handlers; rewrite Hreq; unfold_monad; rewrite Hmail;
    cbn.
  - eexists; split; [reflexivity |]. unfold store_untouched; cbn. auto.
  - eexists; split; [reflexivity |]. unfold store_untouched; cbn.
    repeat split; lia.
Qed.

Lemma submit_fallback srv rq b db w :
  passes_upfront_checks b ->
  primary_unavailable w db ->
  exists w' k,
    handle clock NODE_ENV srv (Submit rq b db) w
      = (Normal (mkResponse 200
                   (Submitted msg_thanks (number_to_string (clock k))
                      (clock (S k)))), w')
    /\ fallbackContacts w'
       = fallbackContacts w ++ [fallback_record b (clock k) (clock (S k))]
    /\ mongoDocs w' = mongoDocs w
    /\ (ticks w <= k)%nat /\ (S k < ticks w')%nat
    /\ (readyState w <> 1 ->
        readyState w' = readyState w /\ mongoCalls w' = mongoCalls w).
Proof.
  intros [Hreq Hmail] Hun.
  destruct (readyState w =? 1) eqn:Hst.
  - destruct Hun as [Hun | [e He]]; [apply Z.eqb_eq in Hst; contradiction |].
    apply Z.eqb_eq in Hst.
    destruct srv; unfold_handlers; rewrite Hreq; unfold_monad; rewrite Hmail;
      cbn; rewrite Hst; cbn; try destruct (is_development NODE_ENV); cbn;
      rewrite He; cbn;
      eexists; eexists; (split; [reflexivity |]); cbn;
      repeat split; try lia; try contradiction.
  - destruct srv; unfold_handlers; rewrite Hreq; unfold_monad; rewrite Hmail;
      cbn; rewrite Hst; cbn;
      eexists; eexists; (split; [reflexivity |]); cbn;
      repeat split; lia.
Qed.

Lemma submit_primary srv rq b db w doc :
  passes_upfront_checks b ->
  readyState w = 1 ->
  create_outcome db = inl doc ->
  exists w',
    handle clock NODE_ENV srv (Submit rq b db) w
      = (Normal (mkResponse 200
                   (Submitted msg_thanks (_id doc) (submittedAt doc))), w')
    /\ fallbackContacts w' = fallbackContacts w
    /\ mongoDocs w' = mongoDocs w ++ [doc]
    /\ (ticks w <= ticks w')%nat.
Proof.
  intros [Hreq Hmail] Hst Hdoc.
  destruct srv; unfold_handlers; rewrite Hreq; unfold_monad; rewrite Hmail;
    cbn; rewrite Hst; cbn; try destruct (is_development NODE_ENV); cbn;
    rewrite Hdoc; cbn;
    eexists; (split; [reflexivity |]); cbn; repeat split; lia.
Qed.

End Handlers.

(** ** Sorting *)

Lemma sort_insert_perm {A} (cmp : A -> A -> Z) (x : A) (l : list A) :
  Permutation (x :: l) (sort_insert cmp x l).
Proof.
  induction l as [| y l IH]; simpl.
  - reflexivity.
  - destruct (cmp x y <=? 0).
    + reflexivity.
    + rewrite perm_swap. constructor. exact IH.
Qed.

Lemma js_sort_perm {A} (cmp : A -> A -> Z) (l : list A) :
  Permutation l (js_sort cmp l).
Proof.
  unfold js_sort. induction l as [| x l IH]; simpl.
  - constructor.
  - rewrite <- sort_insert_perm. constructor. exact IH.
Qed.

Lemma sort_insert_descending (x : contact) (l : list contact) :
  descending l -> descending (sort_insert by_submittedAt_desc x l).
Proof.
  unfold descending. induction 1 as [| y l Hl IH Hy]; simpl.
  - repeat constructor.
  - unfold by_submittedAt_desc at 1.
    destruct (submittedAt y - submittedAt x <=? 0) eqn:E.
    + apply Z.leb_le in E. constructor.
      * constructor; assumption.
      * constructor; [lia |].
        eapply Forall_impl; [| exact Hy]. simpl. intros; lia.
    + apply Z.leb_gt in E. constructor; [exact IH |].
      eapply Permutation_Forall; [apply sort_insert_perm |].
      constructor; [lia | exact Hy].
Qed.

Lemma js_sort_descending (l : list contact) :
  descending (js_sort by_submittedAt_desc l).
Proof.
  unfold js_sort. induction l as [| x l IH]; simpl.
  - constructor.
  - apply sort_insert_descending, IH.
Qed.

Lemma js_sort_fixed (l : list contact) :
  descending l -> js_sort by_submittedAt_desc l = l.
Proof.
  unfold descending, js_sort. induction 1 as [| x l Hl IH Hx]; simpl.
  - reflexivity.
  - rewrite IH. destruct l as [| y l]; simpl; [reflexivity |].
    inversion Hx; subst. unfold by_submittedAt_desc.
    destruct (submittedAt y - submittedAt x <=? 0) eqn:E; [reflexivity |].
    apply Z.leb_gt in E. lia.
Qed.

Lemma js_sort_unchanged_iff (l : list contact) :
  js_sort by_submittedAt_desc l = l <-> descending l.
Proof.
  split.
  - intros <-. apply js_sort_descending.
  - apply js_sort_fixed.
Qed.

(** ** Decimal rendering is injective *)

Lemma number_to_string_inj (a b : Z) :
  number_to_string a = number_to_string b -> a = b.
Proof.
  unfold number_to_string. intro H.
  apply (f_equal NilEmpty.int_of_string) in H.
  rewrite !NilEmpty.isi in H. injection H as H.
  apply (f_equal Z.of_int) in H. rewrite !DecimalZ.of_to in H. exact H.
Qed.

(** ** Listing *)

Lemma list_fallback db w :
  served_from_fallback w db ->
  exists w' source,
    get_api_contacts db w
      = (Normal (mkResponse 200
                   (Listing (js_sort by_submittedAt_desc (fallbackContacts w))
                      source)), w')
    /\ source = (if readyState w' =? 1 then "mongodb" else "fallback")
    /\ fallbackContacts w' = js_sort by_submittedAt_desc (fallbackContacts w)
    /\ mongoDocs w' = mongoDocs w
    /\ ticks w' = ticks w
    /\ (readyState w <> 1 -> readyState w' = readyState w)
    /\ (readyState w = 1 -> readyState w' = ready_after_find db).
Proof.
  intro Hserved. destruct (readyState w =? 1) eqn:Hst.
  - destruct Hserved as [Hne | [e He]];
      [apply Z.eqb_eq in Hst; contradiction |].
    apply Z.eqb_eq in Hst.
    unfold_handlers; unfold_monad; cbn. rewrite Hst; cbn. rewrite He; cbn.
    eexists; eexists; split; [reflexivity |]. cbn. repeat split; congruence.
  - unfold_handlers; unfold_monad; cbn. rewrite Hst; cbn. rewrite Hst.
    apply Z.eqb_neq in Hst.
    eexists; eexists; split; [reflexivity |]. cbn.
    apply Z.eqb_neq in Hst. rewrite Hst. apply Z.eqb_neq in Hst.
    repeat split; congruence.
Qed.

Lemma list_primary db w :
  readyState w = 1 -> find_outcome db = None ->
  exists w',
    get_api_contacts db w
      = (Normal (mkResponse 200
                   (Listing (js_sort by_submittedAt_desc (mongoDocs w))
                      (if ready_after_find db =? 1 then "mongodb"
                       else "fallback"))), w')
    /\ fallbackContacts w' = fallbackContacts w
    /\ mongoDocs w' = mongoDocs w
    /\ readyState w' = ready_after_find db
    /\ ticks w' = ticks w.
Proof.
  intros Hst Hfind.
  unfold_handlers; unfold_monad; cbn. rewrite Hst; cbn. rewrite Hfind; cbn.
  eexists; split; [reflexivity |]. cbn. repeat split.
Qed.

(** ** Events and runs *)

Section Runs.

Variable clock : nat -> Z.
Variable NODE_ENV : option string.

(** What one event does to the fallback list and to the clock: the list is
    permuted, or one record built by the fallback branch is appended. *)
Lemma step_effect srv ev w :
  let w' := step clock NODE_ENV srv ev w in
  (ticks w <= ticks w')%nat
  /\ ((Permutation (fallbackContacts w) (fallbackContacts w'))
      \/ exists b k,
           fallbackContacts w'
           = fallbackContacts w ++ [fallback_record b (clock k) (clock (S k))]
           /\ (ticks w <= k)%nat /\ (S k < ticks w')%nat).
Proof.
  destruct ev as [[rq b db | rq db | rq method url e] | state]; unfold step.
  - destruct (required_present b) eqn:Hreq.
    + destruct (test_value emailRegex (obj_get b "email")) as [[|] |] eqn:Hm.
      * destruct (Z.eq_dec (readyState w) 1) as [Hst | Hst].
        -- destruct (create_outcome db) as [doc | e] eqn:Hdb.
           ++ destruct (submit_primary clock NODE_ENV srv rq b db w doc)
                as (w' & -> & Hf & _ & Ht); [split | | |]; try assumption.
              cbn. split; [lia | left; rewrite Hf; reflexivity].
           ++ destruct (submit_fallback clock NODE_ENV srv rq b db w)
                as (w' & k & -> & Hf & _ & Hk & Hk' & _);
                [split; assumption | right; eauto |].
              cbn. split; [lia | right; eauto].
        -- destruct (submit_fallback clock NODE_ENV srv rq b db w)
             as (w' & k & -> & Hf & _ & Hk & Hk' & _);
             [split; assumption | left; assumption |].
           cbn. split; [lia | right; eauto].
      * destruct (submit_bad_email clock NODE_ENV srv rq b db w Hreq Hm)
          as (w' & -> & (_ & _ & Hf) & _ & Ht).
        cbn. split; [lia | left; rewrite Hf; reflexivity].
      * destruct (submit_throws clock NODE_ENV srv rq b db w Hreq Hm)
          as (w' & -> & (_ & _ & Hf) & _ & Ht).
        cbn. split; [lia | left; rewrite Hf; reflexivity].
    + destruct (submit_missing clock NODE_ENV srv rq b db w Hreq)
        as (w' & -> & (_ & _ & Hf) & _ & Ht).
      cbn. split; [lia | left; rewrite Hf; reflexivity].
  - destruct srv.
    + unfold handle, through_middleware.
      destruct (Z.eq_dec (readyState w) 1) as [Hst | Hst].
      * destruct (find_outcome db) as [e |] eqn:Hdb.
        -- destruct (list_fallback db w)
             as (w' & src & -> & _ & Hf & _ & Ht & _); [right; eauto |].
           cbn. split; [lia | left; rewrite Hf; apply js_sort_perm].
        -- destruct (list_primary db w Hst Hdb)
             as (w' & -> & Hf & _ & _ & Ht).
           cbn. split; [lia | left; rewrite Hf; reflexivity].
      * destruct (list_fallback db w)
          as (w' & src & -> & _ & Hf & _ & Ht & _); [left; assumption |].
        cbn. split; [lia | left; rewrite Hf; apply js_sort_perm].
    + unfold_handlers; unfold_monad; cbn. split; [lia | left; reflexivity].
  - destruct srv; unfold_handlers; unfold_monad; cbn.
    + split; [lia | left; reflexivity].
    + destruct (is_development NODE_ENV); cbn;
        (split; [lia | left; reflexivity]).
  - cbn. split; [lia | left; reflexivity].
Qed.

Lemma appended_cases srv ev w :
  appended clock NODE_ENV srv ev w = []
  \/ exists b k,
       appended clock NODE_ENV srv ev w
       = [fallback_record b (clock k) (clock (S k))]
       /\ (ticks w <= k)%nat
       /\ (S k < ticks (step clock NODE_ENV srv ev w))%nat.
Proof.
  unfold appended.
  destruct (step_effect srv ev w) as [_ [Hperm | (b & k & Hf & Hk & Hk')]].
  - left. apply skipn_all2. apply Permutation_length in Hperm. lia.
  - right. exists b, k. rewrite Hf, skipn_app, skipn_all, Nat.sub_diag.
    auto.
Qed.

Lemma stamped_weaken (m n : nat) (l : list contact) :
  (m <= n)%nat -> stamped clock n l -> stamped clock m l.
Proof.
  intros Hmn H. destruct H as [| b k rest Hk Hrest].
  - constructor.
  - constructor; [lia | assumption].
Qed.

Lemma insertions_stamped srv evs :
  forall w, stamped clock (ticks w) (insertions clock NODE_ENV srv evs w).
Proof.
  induction evs as [| ev evs IH]; intro w; simpl.
  - constructor.
  - specialize (IH (step clock NODE_ENV srv ev w)).
    destruct (appended_cases srv ev w) as [-> | (b & k & -> & Hk & Hk')].
    + simpl. eapply stamped_weaken; [| exact IH].
      apply (step_effect srv ev w).
    + simpl. constructor; [exact Hk |].
      eapply stamped_weaken; [| exact IH]. lia.
Qed.

Lemma record_persists srv evs :
  forall w r,
    In r (fallbackContacts w) ->
    In r (fallbackContacts (run clock NODE_ENV srv evs w)).
Proof.
  unfold run. induction evs as [| ev evs IH]; intros w r Hin; simpl.
  - exact Hin.
  - apply IH.
    destruct (step_effect srv ev w) as [_ [Hperm | (b & k & Hf & _)]].
    + eapply Permutation_in; eassumption.
    + rewrite Hf. apply in_or_app. left. exact Hin.
Qed.

End Runs.

(** Records stamped by a clock that never steps back are in ascending
    order of [submittedAt]. *)
Lemma stamped_ascending (clock : nat -> Z) (n : nat) (l : list contact) :
  clock_monotone clock -> stamped clock n l ->
  ascending l /\ Forall (fun c => clock n <= submittedAt c) l.
Proof.
  intros Hmono H. induction H as [n | n b k rest Hk Hrest [IHs IHb]].
  - split; constructor.
  - split.
    + constructor; [exact IHs |].
      eapply Forall_impl; [| exact IHb]. simpl. intros c Hc.
      assert (clock (S k) <= clock (S (S k))) by (apply Hmono; lia). lia.
    + constructor.
      * simpl. apply Hmono. lia.
      * eapply Forall_impl; [| exact IHb]. simpl. intros c Hc.
        assert (clock n <= clock (S (S k))) by (apply Hmono; lia). lia.
Qed.

(** ** The claims *)

Lemma required_field_falsy (b : jsobj) (k : string) :
  In k ["name"; "email"; "service"; "message"] ->
  truthy (obj_get b k) = false ->
  required_present b = false.
Proof.
  unfold required_present.
  intros [<- | [<- | [<- | [<- | []]]]] ->;
    repeat rewrite ?andb_false_r, ?andb_false_l; reflexivity.
Qed.

Lemma obj_get_absent (b : jsobj) (k : string) :
  has_key b k = false -> obj_get b k = VUndefined.
Proof.
  induction b as [| [k' v] b IH]; simpl; [reflexivity |].
  destruct (String.eqb k' k); simpl; [discriminate | exact IH].
Qed.

(** C2.  A submission in which one of [name], [email], [service],
    [message] is missing (absent, or present with a falsy value: this is
    what [!field] tests) is answered by both servers with status 400 and
    the fixed message "Please fill in all required fields."; no call is
    made on the primary store and the fallback list is unchanged. *)
Theorem missing_field_rejected clock NODE_ENV srv rq b db w k :
  In k ["name"; "email"; "service"; "message"] ->
  truthy (obj_get b k) = false ->
  exists w',
    handle clock NODE_ENV srv (Submit rq b db) w
      = (Normal (mkResponse 400
                   (Failure "Please fill in all required fields.")), w')
    /\ store_untouched w w'.
Proof.
  intros Hk Hfalsy.
  destruct (submit_missing clock NODE_ENV srv rq b db w
              (required_field_falsy b k Hk Hfalsy)) as (w' & H & Hs & _).
  exists w'. split; assumption.
Qed.

(** Scenario C: the message is absent. *)
Lemma missing_field_rejected_witness :
  has_key body_C "message" = false
  /\ exists w',
       handle clock_ms (Some "production") LoggedServer
         (Submit rq_1 body_C no_primary) world_connected
       = (Normal (mkResponse 400
                    (Failure "Please fill in all required fields.")), w')
       /\ store_untouched world_connected w'.
Proof.
  split; [reflexivity |].
  apply (missing_field_rejected clock_ms (Some "production") LoggedServer
           rq_1 body_C no_primary world_connected "message").
  - simpl. auto.
  - reflexivity.
Defined.

(** The email check on every email that has a string form (every string,
    number, boolean and array, and every object without an own [toString]
    property): when the four required fields are present and the email,
    converted to a string as [emailRegex.test] converts it, does not have
    the [x@y.z] shape, both servers answer with status 400 and the message
    "Please enter a valid email address." and leave both tiers of the
    store untouched. *)
Theorem malformed_email_rejected clock NODE_ENV srv rq b db w s :
  required_present b = true ->
  to_string (obj_get b "email") = Some s ->
  ~ email_shape s ->
  exists w',
    handle clock NODE_ENV srv (Submit rq b db) w
      = (Normal (mkResponse 400
                   (Failure "Please enter a valid email address.")), w')
    /\ store_untouched w w'.
Proof.
  intros Hreq Hs Hshape.
  assert (Hm : test_value emailRegex (obj_get b "email") = Some false).
  { unfold test_value. rewrite Hs. simpl.
    destruct (regex_test emailRegex s) eqn:E; [| reflexivity].
    apply emailRegex_shape in E. contradiction. }
  destruct (submit_bad_email clock NODE_ENV srv rq b db w Hreq Hm)
    as (w' & H & Hst & _).
  exists w'. split; assumption.
Qed.

(** Scenario D: the email "not-an-email". *)
Lemma malformed_email_rejected_witness :
  exists w',
    handle clock_ms None PlainServer (Submit rq_1 body_D no_primary) world_0
      = (Normal (mkResponse 400
                   (Failure "Please enter a valid email address.")), w')
    /\ store_untouched world_0 w'.
Proof.
  apply (malformed_email_rejected clock_ms None PlainServer rq_1 body_D
           no_primary world_0 "not-an-email").
  - reflexivity.
  - reflexivity.
  - intro H. apply emailRegex_shape in H. discriminate H.
Defined.

(** C3.  The handlers miss a case of the email check.  With the four
    required fields present, an email that is the object [{"toString": 1}]
    is no string of the [x@y.z] shape, yet the submission is not answered
    with status 400: [emailRegex.test] throws while converting the email,
    nothing catches the error before the outer [catch], and both servers
    answer with status 500.  The neighbouring input [{}] is converted (to
    "[object Object]") and answered with status 400 and the message
    "Please enter a valid email address.", as the check intends. *)
Lemma unconvertible_email_gets_500 :
  required_present body_object_email = true
  /\ (forall s,
        obj_get body_object_email "email" = VStr s -> email_shape s -> False)
  /\ test_value emailRegex (obj_get body_object_email "email") = None
  /\ fst (handle clock_ms None PlainServer
            (Submit rq_1 body_object_email no_primary) world_0)
     = Normal (mkResponse 500
                 (Failure "Sorry, there was an error submitting your message. Please try again later."))
  /\ fst (handle clock_ms None LoggedServer
            (Submit rq_1 body_object_email no_primary) world_0)
     = Normal (mkResponse 500
                 (Failure "Sorry, there was an error submitting your message. Please try again later."))
  /\ test_value emailRegex (obj_get body_empty_object_email "email")
     = Some false
  /\ fst (handle clock_ms None PlainServer
            (Submit rq_1 body_empty_object_email no_primary) world_0)
     = Normal (mkResponse 400
                 (Failure "Please enter a valid email address."))
  /\ fst (handle clock_ms None LoggedServer
            (Submit rq_1 body_empty_object_email no_primary) world_0)
     = Normal (mkResponse 400
                 (Failure "Please enter a valid email address.")).
Proof.
  repeat split; try reflexivity.
  intros s H. discriminate H.
Qed.

(** C1, amended.  A submission that passes the upfront checks while the
    primary store is not connected, or whose primary write throws, is
    answered with status 200 by both servers (nothing is raised); the
    record built from two readings of the clock taken during the request,
    with the decimal reading as identifier and status "new", is appended to
    the fallback list; it stays in the list whatever happens next, and
    every later listing that is served from the fallback list returns it. *)
Theorem fallback_save_succeeds clock NODE_ENV srv rq b db w :
  passes_upfront_checks b ->
  primary_unavailable w db ->
  exists w' k,
    handle clock NODE_ENV srv (Submit rq b db) w
      = (Normal (mkResponse 200
                   (Submitted msg_thanks (number_to_string (clock k))
                      (clock (S k)))), w')
    /\ (ticks w <= k)%nat /\ (S k < ticks w')%nat
    /\ fallbackContacts w'
       = fallbackContacts w
           ++ [mkContact (number_to_string (clock k))
                 (obj_get b "name") (obj_get b "email") (obj_get b "phone")
                 (obj_get b "service") (obj_get b "message")
                 (clock (S k)) (Some "new")]
    /\ forall evs fdb,
         served_from_fallback (run clock NODE_ENV srv evs w') fdb ->
         exists data source w'',
           get_api_contacts fdb (run clock NODE_ENV srv evs w')
             = (Normal (mkResponse 200 (Listing data source)), w'')
           /\ In (fallback_record b (clock k) (clock (S k))) data.
Proof.
  intros Hvalid Hun.
  destruct (submit_fallback clock NODE_ENV srv rq b db w Hvalid Hun)
    as (w' & k & H & Hf & _ & Hk & Hk' & _).
  exists w', k. repeat split; try assumption.
  intros evs fdb Hserved.
  destruct (list_fallback fdb _ Hserved) as (w'' & src & Hl & _).
  eexists. exists src, w''. split; [exact Hl |].
  eapply Permutation_in; [apply js_sort_perm |].
  apply record_persists. rewrite Hf. apply in_or_app. right. left.
  reflexivity.
Qed.

(** Scenario A with the primary store down, then a connection attempt that
    fails, then a listing. *)
Lemma fallback_save_succeeds_witness :
  passes_upfront_checks body_A
  /\ primary_unavailable world_0 no_primary
  /\ exists w' k,
       handle clock_ms None PlainServer (Submit rq_1 body_A no_primary)
         world_0
       = (Normal (mkResponse 200
                    (Submitted msg_thanks (number_to_string (clock_ms k))
                       (clock_ms (S k)))), w')
       /\ (ticks world_0 <= k)%nat /\ (S k < ticks w')%nat
       /\ fallbackContacts w'
          = fallbackContacts world_0
              ++ [mkContact (number_to_string (clock_ms k))
                    (obj_get body_A "name") (obj_get body_A "email")
                    (obj_get body_A "phone") (obj_get body_A "service")
                    (obj_get body_A "message") (clock_ms (S k)) (Some "new")]
       /\ forall evs fdb,
            served_from_fallback (run clock_ms None PlainServer evs w') fdb ->
            exists data source w'',
              get_api_contacts fdb (run clock_ms None PlainServer evs w')
                = (Normal (mkResponse 200 (Listing data source)), w'')
              /\ In (fallback_record body_A (clock_ms k) (clock_ms (S k)))
                   data.
Proof.
  assert (Hv : passes_upfront_checks body_A) by (split; reflexivity).
  assert (Hu : primary_unavailable world_0 no_primary)
    by (left; discriminate).
  split; [exact Hv |]. split; [exact Hu |].
  exact (fallback_save_succeeds clock_ms None PlainServer rq_1 body_A
           no_primary world_0 Hv Hu).
Defined.

(** C1 as stated fails: the primary store is connected and rejects the
    write, the record goes to the fallback list, and the next listing,
    served by the primary store, does not contain it. *)
Lemma failed_write_not_listed :
  passes_upfront_checks body_A
  /\ primary_unavailable world_connected rejecting_primary
  /\ fst (post_api_contact clock_ms body_A rejecting_primary world_connected)
     = Normal (mkResponse 200
                 (Submitted msg_thanks "1700000000000" 1700000000001))
  /\ fallbackContacts
       (snd (post_api_contact clock_ms body_A rejecting_primary
               world_connected))
     = [fallback_record body_A 1700000000000 1700000000001]
  /\ fst (get_api_contacts read_ok
            (snd (post_api_contact clock_ms body_A rejecting_primary
                    world_connected)))
     = Normal (mkResponse 200 (Listing [] "mongodb")).
Proof.
  repeat split.
  right. eexists. reflexivity.
Qed.

Section RunContents.

Variable clock : nat -> Z.
Variable NODE_ENV : option string.

(** The fallback list after a run holds what it held before and what the
    run inserted. *)
Lemma run_contents srv evs :
  forall w,
    Permutation
      (fallbackContacts w ++ insertions clock NODE_ENV srv evs w)
      (fallbackContacts (run clock NODE_ENV srv evs w)).
Proof.
  unfold run. induction evs as [| ev evs IH]; intro w; simpl.
  - rewrite app_nil_r. reflexivity.
  - rewrite <- IH, app_assoc. apply Permutation_app_tail.
    unfold appended.
    destruct (step_effect clock NODE_ENV srv ev w)
      as [_ [Hperm | (b & k & Hf & _)]].
    + rewrite skipn_all2, app_nil_r;
        [exact Hperm | apply Permutation_length in Hperm; lia].
    + rewrite Hf, skipn_app, skipn_all, Nat.sub_diag. reflexivity.
Qed.

(** In a run of saves on the fallback tier every event appends one
    record, at the end of the list. *)
Lemma fallback_saves_contents srv evs :
  forall w,
    all_fallback_saves clock NODE_ENV srv evs w ->
    fallbackContacts (run clock NODE_ENV srv evs w)
    = fallbackContacts w ++ insertions clock NODE_ENV srv evs w
    /\ length (insertions clock NODE_ENV srv evs w) = length evs.
Proof.
  unfold run. induction evs as [| ev evs IH]; intros w Hall; simpl.
  - rewrite app_nil_r. auto.
  - destruct Hall as [(rq & b & db & -> & Hvalid & Hun) Hrest].
    destruct (IH _ Hrest) as [IHc IHl]. rewrite IHc.
    unfold appended.
    destruct (submit_fallback clock NODE_ENV srv rq b db w Hvalid Hun)
      as (w' & k & H & Hf & _).
    unfold step in *. rewrite H in *. cbn [snd] in *.
    rewrite Hf, skipn_app, skipn_all, Nat.sub_diag. cbn [skipn app length].
    rewrite <- app_assoc. split; [reflexivity |].
    cbn [app length]. rewrite IHl. reflexivity.
Qed.

End RunContents.

Section Readings.

Variable clock : nat -> Z.
Variable NODE_ENV : option string.

(** In a run of saves on the fallback tier, the i-th record is built from
    the body of the i-th submission and from two successive readings of
    the clock; the readings of later saves come later. *)
Lemma fallback_saves_readings srv evs :
  forall w,
    all_fallback_saves clock NODE_ENV srv evs w ->
    exists ks,
      length ks = length evs
      /\ length (submitted_bodies evs) = length evs
      /\ insertions clock NODE_ENV srv evs w
         = records_at clock (submitted_bodies evs) ks
      /\ Forall (fun k => (ticks w <= k)%nat) ks
      /\ StronglySorted lt ks.
Proof.
  induction evs as [| ev evs IH]; intros w Hall.
  - exists []. simpl. repeat split; constructor.
  - destruct Hall as [(rq & b & db & -> & Hvalid & Hun) Hrest].
    destruct (IH _ Hrest) as (ks & Hlen & Hbodies & Hins & Hticks & Hsorted).
    destruct (submit_fallback clock NODE_ENV srv rq b db w Hvalid Hun)
      as (w' & k & H & Hf & _ & Hk & Hk' & _).
    exists (k :: ks). cbn [insertions]. unfold appended.
    unfold step in *. rewrite H in *. cbn [snd] in *.
    rewrite Hf, skipn_app, skipn_all, Nat.sub_diag. cbn [skipn app].
    rewrite Hins. cbn [submitted_bodies records_at length].
    assert (Hlater : Forall (lt k) ks)
      by (eapply Forall_impl; [| exact Hticks]; simpl; intros; lia).
    repeat split; try (f_equal; assumption).
    + constructor; [exact Hk |].
      eapply Forall_impl; [| exact Hticks]. simpl. intros. lia.
    + constructor; assumption.
Qed.

End Readings.

Lemma records_at_ids (clock : nat -> Z) (bs : list jsobj) :
  forall ks,
    length bs = length ks ->
    map _id (records_at clock bs ks)
    = map number_to_string (map clock ks).
Proof.
  induction bs as [| b bs IH]; intros [| k ks] Hlen; simpl in *;
    try discriminate; [reflexivity |].
  rewrite IH by lia. reflexivity.
Qed.

Lemma NoDup_number_to_string (l : list Z) :
  NoDup (map number_to_string l) <-> NoDup l.
Proof.
  split.
  - apply NoDup_map_inv.
  - induction 1 as [| x l Hnotin _ IH]; simpl; constructor; [| exact IH].
    intro Hin. apply in_map_iff in Hin as (y & Hy & Hin).
    apply number_to_string_inj in Hy. subst y. contradiction.
Qed.

(** C4, amended.  [N] submissions saved in sequence on the fallback tier
    (each passes the upfront checks and finds the primary store
    unavailable) append [N] records to the fallback list, in order, the
    i-th built from the i-th body and from the [Date.now()] reading of the
    i-th save, these readings being taken one save after the other; the
    identifiers are pairwise distinct exactly when these [N] readings are
    pairwise distinct; and a listing served from the fallback list returns
    the records of the list in non-increasing [submittedAt] order. *)
Theorem fallback_saves_listed clock NODE_ENV srv evs w :
  all_fallback_saves clock NODE_ENV srv evs w ->
  fallbackContacts (run clock NODE_ENV srv evs w)
  = fallbackContacts w ++ insertions clock NODE_ENV srv evs w
  /\ length (insertions clock NODE_ENV srv evs w) = length evs
  /\ (exists ks,
        length ks = length evs
        /\ insertions clock NODE_ENV srv evs w
           = records_at clock (submitted_bodies evs) ks
        /\ Forall (fun k => (ticks w <= k)%nat) ks
        /\ StronglySorted lt ks
        /\ (NoDup (map _id (insertions clock NODE_ENV srv evs w))
            <-> NoDup (map clock ks)))
  /\ forall fdb,
       served_from_fallback (run clock NODE_ENV srv evs w) fdb ->
       exists data source w',
         get_api_contacts fdb (run clock NODE_ENV srv evs w)
           = (Normal (mkResponse 200 (Listing data source)), w')
         /\ descending data
         /\ Permutation
              (fallbackContacts w ++ insertions clock NODE_ENV srv evs w)
              data.
Proof.
  intro Hall.
  destruct (fallback_saves_contents clock NODE_ENV srv evs w Hall)
    as [Hc Hl].
  split; [exact Hc |]. split; [exact Hl |]. split.
  - destruct (fallback_saves_readings clock NODE_ENV srv evs w Hall)
      as (ks & Hlen & Hbodies & Hins & Hticks & Hsorted).
    exists ks. repeat split; try assumption.
    + rewrite Hins, records_at_ids by congruence.
      apply NoDup_number_to_string.
    + rewrite Hins, records_at_ids by congruence.
      apply NoDup_number_to_string.
  - intros fdb Hserved.
    destruct (list_fallback fdb _ Hserved) as (w' & src & H & _).
    eexists. exists src, w'. split; [exact H |]. split.
    + apply js_sort_descending.
    + rewrite <- Hc. apply js_sort_perm.
Qed.

Lemma clock_ms_monotone : clock_monotone clock_ms.
Proof. unfold clock_monotone, clock_ms. intros i j H. lia. Qed.

Lemma three_saves_on_fallback :
  all_fallback_saves clock_per_save None PlainServer three_saves world_0.
Proof.
  simpl. repeat split;
    try (do 3 eexists; repeat split; try reflexivity; left; discriminate).
Qed.

(** Three saves, each in its own millisecond, the two readings of a save
    being equal. *)
Lemma fallback_saves_listed_witness :
  all_fallback_saves clock_per_save None PlainServer three_saves world_0
  /\ clock_per_save 0 = clock_per_save 1
  /\ map _id (insertions clock_per_save None PlainServer three_saves world_0)
     = ["1700000000000"; "1700000000001"; "1700000000002"]
  /\ (exists ks,
        length ks = 3%nat
        /\ insertions clock_per_save None PlainServer three_saves world_0
           = records_at clock_per_save (submitted_bodies three_saves) ks
        /\ NoDup (map clock_per_save ks))
  /\ exists data source w',
       get_api_contacts read_ok
         (run clock_per_save None PlainServer three_saves world_0)
       = (Normal (mkResponse 200 (Listing data source)), w')
       /\ descending data.
Proof.
  split; [exact three_saves_on_fallback |].
  split; [reflexivity |]. split; [reflexivity |].
  destruct (fallback_saves_listed clock_per_save None PlainServer three_saves
              world_0 three_saves_on_fallback)
    as (_ & _ & (ks & Hlen & Hins & _ & _ & Hiff) & Hlist).
  split.
  - exists ks. split; [exact Hlen |]. split; [exact Hins |].
    apply Hiff.
    change (map _id
              (insertions clock_per_save None PlainServer three_saves
                 world_0))
      with ["1700000000000"; "1700000000001"; "1700000000002"].
    repeat constructor; simpl; intuition discriminate.
  - destruct (Hlist read_ok) as (data & src & w' & H & Hd & _).
    + left. discriminate.
    + exists data, src, w'. split; assumption.
Defined.

(** C4 as stated fails: two submissions saved within the same millisecond
    get the same identifier. *)
Lemma same_millisecond_same_id :
  all_fallback_saves clock_same_ms None PlainServer two_saves world_0
  /\ map _id
       (fallbackContacts (run clock_same_ms None PlainServer two_saves world_0))
     = ["1700000000000"; "1700000000000"]
  /\ ~ NoDup
       (map _id
          (fallbackContacts
             (run clock_same_ms None PlainServer two_saves world_0))).
Proof.
  split; [| split].
  - simpl. repeat split;
      try (do 3 eexists; repeat split; try reflexivity; left; discriminate).
  - reflexivity.
  - intro H. inversion H as [| x l Hnotin _]; subst.
    apply Hnotin. left. reflexivity.
Qed.

(** C5, amended.  Provided the wall clock never steps back, the records
    appended to the fallback list during any run of either server, taken
    in the order of their insertion, have non-decreasing [submittedAt];
    they are, with the records present before, the content of the list. *)
Theorem insertions_ascending clock NODE_ENV srv evs w :
  clock_monotone clock ->
  ascending (insertions clock NODE_ENV srv evs w)
  /\ Permutation
       (fallbackContacts w ++ insertions clock NODE_ENV srv evs w)
       (fallbackContacts (run clock NODE_ENV srv evs w)).
Proof.
  intro Hmono. split.
  - apply (stamped_ascending clock (ticks w)); [exact Hmono |].
    apply insertions_stamped.
  - apply run_contents.
Qed.

Lemma insertions_ascending_witness :
  clock_monotone clock_ms
  /\ ascending
       (insertions clock_ms None PlainServer
          (three_saves ++ [Request (ListAll rq_1 read_ok)] ++ two_saves)
          world_0)
  /\ Permutation
       (fallbackContacts world_0
        ++ insertions clock_ms None PlainServer
             (three_saves ++ [Request (ListAll rq_1 read_ok)] ++ two_saves)
             world_0)
       (fallbackContacts
          (run clock_ms None PlainServer
             (three_saves ++ [Request (ListAll rq_1 read_ok)] ++ two_saves)
             world_0)).
Proof.
  split; [exact clock_ms_monotone |].
  exact (insertions_ascending clock_ms None PlainServer _
           world_0 clock_ms_monotone).
Defined.

(** C5 as stated fails: when the wall clock is set back between two saves,
    the record appended later has the smaller [submittedAt]. *)
Lemma clock_set_back_breaks_order :
  map submittedAt
    (insertions clock_backwards None PlainServer two_saves world_0)
  = [1700000000001; 1699996400003]
  /\ fallbackContacts (run clock_backwards None PlainServer two_saves world_0)
     = insertions clock_backwards None PlainServer two_saves world_0
  /\ ~ ascending
       (insertions clock_backwards None PlainServer two_saves world_0).
Proof.
  split; [reflexivity |]. split; [reflexivity |].
  change (insertions clock_backwards None PlainServer two_saves world_0)
    with [fallback_record body_A 1700000000000 1700000000001;
          fallback_record body_B 1699996400002 1699996400003].
  intro H. inversion H as [| x l _ Hx]; subst.
  inversion Hx as [| y l' Hy _]; subst. simpl in Hy. lia.
Qed.

(** C6, amended.  [GET /api/contacts] always answers with status 200 and
    [{success: true, data, source}] where [source] is the string "mongodb"
    or "fallback".  When the primary store is not connected, [source] is
    "fallback" and [data] is the fallback list, sorted; when it is
    connected, the read succeeds and the connection is still established
    when the response is built, [source] is "mongodb" and [data] is the
    documents of the primary store, sorted. *)
Theorem listing_source db w :
  exists data source w',
    get_api_contacts db w
      = (Normal (mkResponse 200 (Listing data source)), w')
    /\ body_success (Listing data source) = true
    /\ (source = "mongodb" \/ source = "fallback")
    /\ (readyState w <> 1 ->
        source = "fallback"
        /\ data = js_sort by_submittedAt_desc (fallbackContacts w))
    /\ (readyState w = 1 -> find_outcome db = None ->
        ready_after_find db = 1 ->
        source = "mongodb"
        /\ data = js_sort by_submittedAt_desc (mongoDocs w)).
Proof.
  destruct (Z.eq_dec (readyState w) 1) as [Hst | Hst].
  - destruct (find_outcome db) as [e |] eqn:Hdb.
    + destruct (list_fallback db w)
        as (w' & src & H & Hsrc & _); [right; eauto |].
      eexists. exists src, w'. split; [exact H |]. split; [reflexivity |].
      split; [| split]; try (intros; congruence).
      rewrite Hsrc. destruct (readyState w' =? 1); auto.
    + destruct (list_primary db w Hst Hdb) as (w' & H & _).
      eexists. eexists. exists w'. split; [exact H |].
      split; [reflexivity |]. split; [| split].
      * destruct (ready_after_find db =? 1); auto.
      * intros; congruence.
      * intros _ _ ->. auto.
  - destruct (list_fallback db w)
      as (w' & src & H & Hsrc & _ & _ & _ & Hkeep & _); [left; exact Hst |].
    eexists. exists src, w'. split; [exact H |]. split; [reflexivity |].
    assert (Hsrc' : src = "fallback").
    { rewrite Hsrc, (Hkeep Hst).
      destruct (readyState w =? 1) eqn:E; [| reflexivity].
      apply Z.eqb_eq in E. contradiction. }
    split; [auto |]. split; [auto |]. intros; contradiction.
Qed.

Lemma listing_source_witness :
  fst (get_api_contacts read_ok world_both_tiers)
    = Normal (mkResponse 200 (Listing (mongoDocs world_both_tiers) "mongodb"))
  /\ fst (get_api_contacts read_ok world_two_saved)
     = Normal (mkResponse 200
                 (Listing [record_at 1700000000500; record_at 1700000000000]
                    "fallback"))
  /\ exists data source w',
       get_api_contacts read_ok world_both_tiers
         = (Normal (mkResponse 200 (Listing data source)), w')
       /\ source = "mongodb"
       /\ data = js_sort by_submittedAt_desc (mongoDocs world_both_tiers).
Proof.
  split; [reflexivity |]. split; [reflexivity |].
  destruct (listing_source read_ok world_both_tiers)
    as (data & src & w' & H & _ & _ & _ & Hprimary).
  exists data, src, w'. split; [exact H |].
  apply Hprimary; reflexivity.
Defined.

(** C6 as stated fails: [source] is never the string "primary"; and when
    the store is connected but the read fails, the fallback list is served
    under the source "mongodb". *)
Lemma listing_source_misnamed :
  fst (get_api_contacts read_ok world_both_tiers)
    = Normal (mkResponse 200 (Listing (mongoDocs world_both_tiers) "mongodb"))
  /\ "mongodb" <> "primary" /\ "mongodb" <> "fallback"
  /\ served_from_fallback world_both_tiers read_fails
  /\ fst (get_api_contacts read_fails world_both_tiers)
     = Normal (mkResponse 200
                 (Listing (fallbackContacts world_both_tiers) "mongodb"))
  /\ fallbackContacts world_both_tiers <> mongoDocs world_both_tiers.
Proof.
  repeat split; try discriminate.
  right. eexists. reflexivity.
Qed.

(** C7.  Whenever the [try] block of a submission handler throws, the
    handler completes with status 500 and the body
    [{success: false, message}] whose message is the fixed apology; and
    outside the development configuration the error-handling middleware
    answers every error with status 500 and [{success: false, message}]
    with the fixed message "Something went wrong!": neither body has
    another property (no exception message, no stack, no request id). *)
Theorem failure_responses_fixed clock NODE_ENV srv rq b db w e w1 :
  submission_try clock NODE_ENV srv rq b db w = (Throw e, w1) ->
  (exists w2,
      submission_handler clock NODE_ENV srv rq b db w
        = (Normal (mkResponse 500 (Failure msg_sorry)), w2))
  /\ body_keys (Failure msg_sorry) = ["success"; "message"]
  /\ (is_development NODE_ENV = false ->
      forall method url err w0,
      exists w3,
        error_handler clock NODE_ENV srv rq method url err w0
          = (Normal (mkResponse 500 (Failure "Something went wrong!")), w3)).
Proof.
  intro Hthrow. split; [| split; [reflexivity |]].
  - destruct srv; simpl in Hthrow; simpl;
      unfold post_api_contact, post_api_contact_logged, try_catch;
      rewrite Hthrow; unfold_monad; cbn; eexists; reflexivity.
  - intros Hdev method url err w0.
    destruct srv; simpl; unfold_handlers; unfold_monad; cbn;
      try rewrite Hdev; eexists; reflexivity.
Qed.

Lemma failure_responses_fixed_witness :
  (exists e w1,
      submission_try clock_ms (Some "production") LoggedServer rq_1
        body_object_email no_primary world_0 = (Throw e, w1))
  /\ (exists w2,
         submission_handler clock_ms (Some "production") LoggedServer rq_1
           body_object_email no_primary world_0
         = (Normal (mkResponse 500 (Failure msg_sorry)), w2))
  /\ (forall method url err w0,
      exists w3,
        error_handler clock_ms (Some "production") LoggedServer rq_1 method
          url err w0
        = (Normal (mkResponse 500 (Failure "Something went wrong!")), w3)).
Proof.
  assert (Hthrow :
    exists e w1,
      submission_try clock_ms (Some "production") LoggedServer rq_1
        body_object_email no_primary world_0 = (Throw e, w1))
    by (eexists; eexists; reflexivity).
  split; [exact Hthrow |].
  destruct Hthrow as (e & w1 & Hthrow).
  destruct (failure_responses_fixed clock_ms (Some "production") LoggedServer
              rq_1 body_object_email no_primary world_0 e w1 Hthrow)
    as (Hhandler & _ & Hmiddleware).
  split; [exact Hhandler | exact (Hmiddleware eq_refl)].
Defined.

(** ** What the instrumented server logs of a body *)

Lemma skipn_console (l extra : list line) :
  skipn (length l) (l ++ extra) = extra.
Proof. rewrite skipn_app, skipn_all, Nat.sub_diag. reflexivity. Qed.

Ltac new_console_lines :=
  unfold new_lines; cbn;
  repeat rewrite <- app_assoc; rewrite skipn_console; cbn.

(** The bodies logged for a submission: the redacted body once, when the
    submission starts, and once more when the pipeline throws. *)
Lemma logged_bodies_submit clock NODE_ENV rq b db w :
  logged_bodies
    (new_lines w
       (snd (handle clock NODE_ENV LoggedServer (Submit rq b db) w)))
  = VObj (redacted b)
      :: (if required_present b then
            match test_value emailRegex (obj_get b "email") with
            | None => [VObj (redacted b)]
            | Some _ => []
            end
          else []).
Proof.
  unfold_handlers.
  destruct (required_present b) eqn:Hreq; unfold_monad.
  - destruct (test_value emailRegex (obj_get b "email")) as [[|] |] eqn:Hm.
    + cbn. destruct (readyState w =? 1) eqn:Hst; cbn.
      * destruct (is_development NODE_ENV); cbn;
          destruct (create_outcome db); new_console_lines; reflexivity.
      * new_console_lines; reflexivity.
    + new_console_lines; reflexivity.
    + new_console_lines; reflexivity.
  - new_console_lines; reflexivity.
Qed.

Lemma same_but_message_get (b1 b2 : jsobj) (k : string) :
  same_but_message b1 b2 -> k <> "message" -> obj_get b1 k = obj_get b2 k.
Proof.
  intros H Hk. induction H as [| [k1 v1] [k2 v2] l1 l2 [Hkey Hval] _ IH];
    simpl in *; [reflexivity |].
  subst k2. destruct (String.eqb k1 k) eqn:E; [| exact IH].
  apply String.eqb_eq in E. subst k1. apply Hval. exact Hk.
Qed.

Lemma same_but_message_no_message (b1 b2 : jsobj) :
  same_but_message b1 b2 -> ~ In "message" (map fst b1) -> b1 = b2.
Proof.
  intros H. induction H as [| [k1 v1] [k2 v2] l1 l2 [Hkey Hval] _ IH];
    simpl in *; intro Hnot; [reflexivity |].
  subst k2. rewrite Hval, IH; auto.
Qed.

Lemma same_but_message_set (b1 b2 : jsobj) (v : jsval) :
  well_formed b1 -> same_but_message b1 b2 ->
  obj_set b1 "message" v = obj_set b2 "message" v.
Proof.
  unfold well_formed. intros Hwf H.
  induction H as [| [k1 v1] [k2 v2] l1 l2 [Hkey Hval] Hrest IH];
    simpl in *; [reflexivity |].
  subst k2. inversion Hwf as [| ? ? Hnotin Hwf']; subst.
  destruct (String.eqb k1 "message") eqn:E.
  - apply String.eqb_eq in E. subst k1.
    rewrite (same_but_message_no_message l1 l2 Hrest Hnotin). reflexivity.
  - apply String.eqb_neq in E. rewrite (Hval E), (IH Hwf'). reflexivity.
Qed.

Lemma redacted_message (b : jsobj) :
  truthy (obj_get b "message") = true ->
  obj_get (redacted b) "message" = VStr "[REDACTED]".
Proof.
  unfold redacted. intros ->.
  induction b as [| [k v] b IH]; simpl; [reflexivity |].
  destruct (String.eqb k "message") eqn:E; simpl.
  - reflexivity.
  - rewrite E. exact IH.
Qed.

(** The free text of the message reaches no line of the console, and not
    the response: two submissions that differ in the message only, served
    in the same circumstances, print the same lines and get the same
    answer. *)
Lemma console_ignores_message clock NODE_ENV rq db w (b1 b2 : jsobj) :
  well_formed b1 ->
  same_but_message b1 b2 ->
  truthy (obj_get b1 "message") = true ->
  truthy (obj_get b2 "message") = true ->
  console (snd (handle clock NODE_ENV LoggedServer (Submit rq b1 db) w))
  = console (snd (handle clock NODE_ENV LoggedServer (Submit rq b2 db) w))
  /\ fst (handle clock NODE_ENV LoggedServer (Submit rq b1 db) w)
     = fst (handle clock NODE_ENV LoggedServer (Submit rq b2 db) w).
Proof.
  intros Hwf Hsame Hm1 Hm2.
  assert (Hred : redacted b2 = redacted b1).
  { unfold redacted. rewrite Hm1, Hm2. symmetry.
    apply same_but_message_set; assumption. }
  assert (Hget : forall k, k <> "message" -> obj_get b2 k = obj_get b1 k)
    by (intros k Hk; symmetry; apply same_but_message_get; assumption).
  unfold handle, through_middleware, submission_handler,
    with_request_logging, post_api_contact_logged,
    post_api_contact_logged_try.
  rewrite Hred, Hm1, Hm2.
  rewrite !(Hget "name"), !(Hget "email"), !(Hget "service"),
    !(Hget "phone") by discriminate.
  destruct (truthy (obj_get b1 "name")), (truthy (obj_get b1 "email")),
    (truthy (obj_get b1 "service")); unfold_monad; cbn;
    try (split; reflexivity).
  destruct (test_value emailRegex (obj_get b1 "email")) as [[|] |]; cbn;
    try (split; reflexivity).
  destruct (readyState w =? 1); cbn;
    [| rewrite !length_app; split; reflexivity].
  destruct (is_development NODE_ENV); cbn;
    destruct (create_outcome db); cbn; rewrite ?length_app;
    split; reflexivity.
Qed.

(** C8.  Two submissions whose bodies are the same object but for the
    value of a non-empty (truthy) [message] leave the same [body] fields
    in the log of the instrumented server, whatever the clock, the
    configuration, the database and the state of the process do: every
    logged body is the redacted body, in which [message] is the string
    "[REDACTED]", and at least one is logged. *)
Theorem logged_body_redacted
    clock1 clock2 env1 env2 rq1 rq2 db1 db2 w1 w2 (b1 b2 : jsobj) :
  well_formed b1 ->
  same_but_message b1 b2 ->
  truthy (obj_get b1 "message") = true ->
  truthy (obj_get b2 "message") = true ->
  logged_bodies
    (new_lines w1
       (snd (handle clock1 env1 LoggedServer (Submit rq1 b1 db1) w1)))
  = logged_bodies
      (new_lines w2
         (snd (handle clock2 env2 LoggedServer (Submit rq2 b2 db2) w2)))
  /\ Forall (fun logged => logged = VObj (redacted b1))
       (logged_bodies
          (new_lines w1
             (snd (handle clock1 env1 LoggedServer (Submit rq1 b1 db1) w1))))
  /\ logged_bodies
       (new_lines w1
          (snd (handle clock1 env1 LoggedServer (Submit rq1 b1 db1) w1)))
     <> []
  /\ obj_get (redacted b1) "message" = VStr "[REDACTED]".
Proof.
  intros Hwf Hsame Hm1 Hm2.
  rewrite !logged_bodies_submit.
  assert (Hred : redacted b1 = redacted b2).
  { unfold redacted. rewrite Hm1, Hm2.
    apply same_but_message_set; assumption. }
  assert (Hreq : required_present b1 = required_present b2).
  { unfold required_present. rewrite Hm1, Hm2.
    rewrite !(same_but_message_get b1 b2 _ Hsame) by discriminate.
    reflexivity. }
  assert (Hmail : obj_get b1 "email" = obj_get b2 "email")
    by (apply same_but_message_get; [assumption | discriminate]).
  rewrite <- Hred, <- Hreq, <- Hmail.
  split; [reflexivity |]. split; [| split].
  - destruct (required_present b1);
      [destruct (test_value emailRegex (obj_get b1 "email")) |];
      repeat constructor.
  - discriminate.
  - apply redacted_message. exact Hm1.
Qed.

Lemma logged_body_redacted_witness :
  well_formed body_A /\ same_but_message body_A body_A'
  /\ logged_bodies
       (new_lines world_0
          (snd (handle clock_ms None LoggedServer
                  (Submit rq_1 body_A no_primary) world_0)))
     = logged_bodies
         (new_lines world_connected
            (snd (handle clock_same_ms (Some "development") LoggedServer
                    (Submit rq_1 body_A' rejecting_primary)
                    world_connected)))
  /\ logged_bodies
       (new_lines world_0
          (snd (handle clock_ms None LoggedServer
                  (Submit rq_1 body_A no_primary) world_0)))
     = [VObj [("name", VStr "Jo"); ("email", VStr "jo@x.com");
              ("service", VStr "Civil Work");
              ("message", VStr "[REDACTED]")]].
Proof.
  assert (Hwf : well_formed body_A).
  { unfold well_formed. simpl.
    repeat constructor; simpl; intuition discriminate. }
  assert (Hsame : same_but_message body_A body_A').
  { unfold same_but_message. repeat constructor; simpl;
      try reflexivity; intro H; contradiction H; reflexivity. }
  split; [exact Hwf |]. split; [exact Hsame |].
  split; [| reflexivity].
  apply (logged_body_redacted clock_ms clock_same_ms None
           (Some "development") rq_1 rq_1 no_primary rejecting_primary
           world_0 world_connected body_A body_A' Hwf Hsame);
    reflexivity.
Defined.

(** C9.  A submission whose service is a non-empty string outside the
    categories of the schema, and which passes the upfront checks of the
    handler (presence of the four fields, shape of the email), is accepted
    whatever the state of the process and the primary store do: it is
    answered with status 200 and the success envelope, never with 400; and
    when the primary store is not connected its record, with that service,
    is appended to the fallback list, no call being made on the primary
    store. *)
Theorem unlisted_service_accepted clock NODE_ENV srv rq b db w s :
  obj_get b "service" = VStr s ->
  s <> "" ->
  ~ In s service_enum ->
  passes_upfront_checks b ->
  (exists id time w',
      handle clock NODE_ENV srv (Submit rq b db) w
        = (Normal (mkResponse 200 (Submitted msg_thanks id time)), w')
      /\ body_success (Submitted msg_thanks id time) = true)
  /\ (readyState w <> 1 ->
      exists w' k,
        handle clock NODE_ENV srv (Submit rq b db) w
          = (Normal (mkResponse 200
                       (Submitted msg_thanks (number_to_string (clock k))
                          (clock (S k)))), w')
        /\ body_success
             (Submitted msg_thanks (number_to_string (clock k))
                (clock (S k)))
           = true
        /\ fallbackContacts w'
           = fallbackContacts w
               ++ [fallback_record b (clock k) (clock (S k))]
        /\ service (fallback_record b (clock k) (clock (S k))) = VStr s
        /\ mongoCalls w' = mongoCalls w).
Proof.
  intros Hservice _ _ Hvalid. split.
  - destruct (Z.eq_dec (readyState w) 1) as [Hst | Hst].
    + destruct (create_outcome db) as [doc | e] eqn:Hdb.
      * destruct (submit_primary clock NODE_ENV srv rq b db w doc Hvalid
                    Hst Hdb) as (w' & H & _).
        eexists. eexists. exists w'. split; [exact H | reflexivity].
      * destruct (submit_fallback clock NODE_ENV srv rq b db w Hvalid)
          as (w' & k & H & _); [right; eauto |].
        eexists. eexists. exists w'. split; [exact H | reflexivity].
    + destruct (submit_fallback clock NODE_ENV srv rq b db w Hvalid
                  (or_introl Hst)) as (w' & k & H & _).
      eexists. eexists. exists w'. split; [exact H | reflexivity].
  - intro Hst.
    destruct (submit_fallback clock NODE_ENV srv rq b db w Hvalid
                (or_introl Hst))
      as (w' & k & H & Hf & _ & _ & _ & Hkeep).
    exists w', k. split; [exact H |]. split; [reflexivity |].
    split; [exact Hf |]. split; [exact Hservice |]. apply Hkeep, Hst.
Qed.

(** Scenario B: the service "Plumbing", with the primary store connected
    and accepting the write, and with the primary store down. *)
Lemma unlisted_service_accepted_witness :
  ~ In "Plumbing" service_enum
  /\ (exists id time w',
         handle clock_ms None LoggedServer
           (Submit rq_1 body_B accepting_primary) world_connected
         = (Normal (mkResponse 200 (Submitted msg_thanks id time)), w')
         /\ body_success (Submitted msg_thanks id time) = true)
  /\ exists w' k,
       handle clock_ms None PlainServer (Submit rq_1 body_B no_primary)
         world_0
       = (Normal (mkResponse 200
                    (Submitted msg_thanks (number_to_string (clock_ms k))
                       (clock_ms (S k)))), w')
       /\ body_success
            (Submitted msg_thanks (number_to_string (clock_ms k))
               (clock_ms (S k))) = true
       /\ fallbackContacts w'
          = fallbackContacts world_0
              ++ [fallback_record body_B (clock_ms k) (clock_ms (S k))]
       /\ service (fallback_record body_B (clock_ms k) (clock_ms (S k)))
          = VStr "Plumbing"
       /\ mongoCalls w' = mongoCalls world_0.
Proof.
  assert (Hout : ~ In "Plumbing" service_enum)
    by (simpl; intuition discriminate).
  assert (Hvalid : passes_upfront_checks body_B) by (split; reflexivity).
  assert (Hne : "Plumbing" <> "") by discriminate.
  split; [exact Hout |]. split.
  - exact (proj1 (unlisted_service_accepted clock_ms None LoggedServer rq_1
                    body_B accepting_primary world_connected "Plumbing"
                    eq_refl Hne Hout Hvalid)).
  - apply (proj2 (unlisted_service_accepted clock_ms None PlainServer rq_1
                    body_B no_primary world_0 "Plumbing"
                    eq_refl Hne Hout Hvalid)).
    discriminate.
Defined.

(** C10.  A listing served from the fallback list (the primary store is
    not connected, or its read fails) sorts the stored list in place: the
    list left in the process state is the array that is returned, it is in
    descending [submittedAt] order and holds the same records as before;
    the state is unchanged exactly when the list was already in that
    order. *)
Theorem listing_sorts_in_place db w :
  served_from_fallback w db ->
  exists data source w',
    get_api_contacts db w
      = (Normal (mkResponse 200 (Listing data source)), w')
    /\ fallbackContacts w' = data
    /\ descending data
    /\ Permutation (fallbackContacts w) data
    /\ (fallbackContacts w' = fallbackContacts w
        <-> descending (fallbackContacts w)).
Proof.
  intro Hserved.
  destruct (list_fallback db w Hserved) as (w' & src & H & _ & Hf & _).
  eexists. exists src, w'. split; [exact H |]. split; [exact Hf |].
  split; [apply js_sort_descending |]. split; [apply js_sort_perm |].
  rewrite Hf. apply js_sort_unchanged_iff.
Qed.

(** Two records saved half a second apart: the listing reverses the stored
    list. *)
Lemma listing_sorts_in_place_witness :
  served_from_fallback world_two_saved read_ok
  /\ fallbackContacts (snd (get_api_contacts read_ok world_two_saved))
     = [record_at 1700000000500; record_at 1700000000000]
  /\ fallbackContacts (snd (get_api_contacts read_ok world_two_saved))
     <> fallbackContacts world_two_saved
  /\ exists data source w',
       get_api_contacts read_ok world_two_saved
         = (Normal (mkResponse 200 (Listing data source)), w')
       /\ fallbackContacts w' = data
       /\ descending data
       /\ Permutation (fallbackContacts world_two_saved) data.
Proof.
  assert (Hserved : served_from_fallback world_two_saved read_ok)
    by (left; discriminate).
  split; [exact Hserved |]. split; [reflexivity |].
  split; [discriminate |].
  destruct (listing_sorts_in_place read_ok world_two_saved Hserved)
    as (data & src & w' & H & Hf & Hd & Hp & _).
  exists data, src, w'. repeat split; assumption.
Defined.

(** * Further properties *)

(** ** The patterns of the schema *)

Lemma Matches_Seq_inv (r1 r2 : regex) (s : list ascii) :
  Matches (Seq r1 r2) s ->
  exists s1 s2, s = s1 ++ s2 /\ Matches r1 s1 /\ Matches r2 s2.
Proof.
  intro H. inversion H as [| | ? ? s1 s2 M1 M2 | | | |]; subst.
  exists s1, s2. auto.
Qed.

Lemma Matches_Class_inv (p : ascii -> bool) (s : list ascii) :
  Matches (Class p) s -> exists c, s = [c] /\ p c = true.
Proof. intro H. inversion H; subst. eauto. Qed.

Lemma Matches_Opt (r : regex) (s : list ascii) :
  Matches (Opt r) s <-> s = [] \/ Matches r s.
Proof.
  unfold Opt. split.
  - intro H. inversion H as [| | | ? ? ? HL | ? ? ? HR | |]; subst.
    + inversion HL. auto.
    + auto.
  - intros [-> | H]; [apply MAltL; constructor | apply MAltR; exact H].
Qed.

Lemma Matches_Star_Forall (P : ascii -> Prop) (r : regex) (s : list ascii) :
  (forall t, Matches r t -> Forall P t) ->
  Matches (Star r) s -> Forall P s.
Proof.
  intros Hr H. remember (Star r) as r' eqn:Er.
  induction H as [| | | | | | r0 s1 s2 H1 _ H2 IH2]; try discriminate.
  - constructor.
  - injection Er as ->. apply Forall_app. split; [apply Hr, H1 | auto].
Qed.

Lemma Matches_UpTo_Class (p : ascii -> bool) (n : nat) :
  forall s,
    Matches (UpTo n (Class p)) s
    <-> Forall (fun c => p c = true) s /\ (length s <= n)%nat.
Proof.
  induction n as [| n IH]; intro s; simpl.
  - split.
    + intro H. inversion H; subst. split; [constructor | simpl; lia].
    + intros [_ Hlen]. destruct s; [constructor | simpl in Hlen; lia].
  - rewrite Matches_Opt. split.
    + intros [-> | H]; [split; [constructor | simpl; lia] |].
      apply Matches_Seq_inv in H as (s1 & s2 & -> & M1 & M2).
      apply Matches_Class_inv in M1 as (c & -> & Hc).
      apply IH in M2 as [Hall Hlen].
      split; [constructor; assumption | simpl; lia].
    + intros [Hall Hlen]. destruct s as [| c s]; [left; reflexivity |].
      right. inversion Hall; subst. simpl in Hlen.
      change (c :: s) with ([c] ++ s).
      constructor; [constructor; assumption | apply IH; split; [| lia]];
        assumption.
Qed.

Lemma word_not_space_at (c : ascii) :
  is_word c = true -> not_space_at c = true.
Proof.
  destruct c as [[] [] [] [] [] [] [] []]; intro H;
    solve [reflexivity | discriminate H].
Qed.

Lemma dot_or_dash_not_space_at (c : ascii) :
  is_dot_or_dash c = true -> not_space_at c = true.
Proof.
  destruct c as [[] [] [] [] [] [] [] []]; intro H;
    solve [reflexivity | discriminate H].
Qed.

Lemma word_not_at (c : ascii) :
  (is_word c || is_dot_or_dash c)%bool = true -> c <> "@"%char.
Proof.
  intros H ->. discriminate H.
Qed.

Lemma Plus_word_label (s : list ascii) :
  Matches (Plus (Class is_word)) s -> s <> [] /\ Forall label_char s.
Proof.
  intro H. apply Matches_Plus_Class in H as [Hne Hall]. split; [exact Hne |].
  eapply Forall_impl; [| exact Hall]. unfold label_char. simpl.
  intros c ->. reflexivity.
Qed.

Lemma word_run_label (s : list ascii) :
  Matches word_run s -> s <> [] /\ Forall label_char s.
Proof.
  unfold word_run. intro H.
  apply Matches_Seq_inv in H as (s1 & s2 & -> & M1 & M2).
  apply Plus_word_label in M1 as [Hne Hall1]. split.
  - destruct s1; [contradiction | discriminate].
  - apply Forall_app. split; [exact Hall1 |].
    apply (Matches_Star_Forall label_char) in M2; [exact M2 |].
    intros t Ht.
    apply Matches_Seq_inv in Ht as (t1 & t2 & -> & N1 & N2).
    apply Forall_app. split.
    + apply Matches_Opt in N1 as [-> | N1]; [constructor |].
      apply Matches_Class_inv in N1 as (c & -> & Hc).
      repeat constructor. unfold label_char. rewrite Hc.
      apply orb_true_r.
    + apply Plus_word_label, N2.
Qed.

Lemma dot_label_shape (s : list ascii) :
  Matches dot_label s ->
  exists z, s = "."%char :: z /\ z <> [] /\ Forall label_char z.
Proof.
  unfold dot_label. intro H.
  apply Matches_Seq_inv in H as (s0 & s1 & -> & M0 & M1).
  apply Matches_Chr in M0. subst s0.
  apply Matches_Seq_inv in M1 as (a & s2 & -> & Ma & M2).
  apply Matches_Class_inv in Ma as (ca & -> & Hca).
  apply Matches_Seq_inv in M2 as (b & s3 & -> & Mb & M3).
  apply Matches_Class_inv in Mb as (cb & -> & Hcb).
  assert (Hw : forall c, is_word c = true -> label_char c)
    by (unfold label_char; intros c ->; reflexivity).
  eexists. split; [reflexivity |]. split; [discriminate |].
  simpl. constructor; [auto |]. constructor; [auto |].
  apply Matches_Opt in M3 as [-> | M3]; [constructor |].
  apply Matches_Class_inv in M3 as (cc & -> & Hcc). repeat constructor.
  auto.
Qed.

Lemma dot_labels_shape (s : list ascii) :
  Matches (Plus dot_label) s ->
  exists z, s = "."%char :: z /\ z <> [] /\ Forall label_char z.
Proof.
  unfold Plus. intro H.
  apply Matches_Seq_inv in H as (s1 & s2 & -> & M1 & M2).
  apply dot_label_shape in M1 as (z & -> & Hne & Hall).
  exists (z ++ s2). split; [reflexivity |]. split.
  - destruct z; [contradiction | discriminate].
  - apply Forall_app. split; [exact Hall |].
    apply (Matches_Star_Forall label_char) in M2; [exact M2 |].
    intros t Ht. apply dot_label_shape in Ht as (z' & -> & _ & Hall').
    constructor; [reflexivity | exact Hall'].
Qed.

(** The parts of a string that the schema accepts as email. *)
Lemma schemaEmailRegex_parts (s : string) :
  regex_test schemaEmailRegex s = true ->
  exists x y z,
    list_ascii_of_string s = x ++ "@"%char :: y ++ "."%char :: z
    /\ x <> [] /\ y <> [] /\ z <> []
    /\ Forall label_char x /\ Forall label_char y /\ Forall label_char z.
Proof.
  unfold regex_test. rewrite matchb_Matches. unfold schemaEmailRegex.
  intro H.
  apply Matches_Seq_inv in H as (x & s1 & E & Mx & M1).
  apply Matches_Seq_inv in M1 as (a & s2 & -> & Ma & M2).
  apply Matches_Chr in Ma. subst a.
  apply Matches_Seq_inv in M2 as (y & t & -> & My & Mt).
  apply word_run_label in Mx as [Hx Ax], My as [Hy Ay].
  apply dot_labels_shape in Mt as (z & -> & Hz & Az).
  exists x, y, z. rewrite E. simpl. repeat split; assumption.
Qed.

Lemma label_char_not_space_at (l : list ascii) :
  Forall label_char l -> Forall (fun c => not_space_at c = true) l.
Proof.
  apply Forall_impl. unfold label_char. intros c Hc.
  apply orb_true_iff in Hc as [Hc | Hc];
    [apply word_not_space_at | apply dot_or_dash_not_space_at]; exact Hc.
Qed.

(** X1.  Every string that the [match] pattern of the schema accepts as
    email passes the shape check of the submission handlers; the converse
    fails, the handlers let through emails that the schema rejects. *)
Theorem schema_email_passes_handler_check :
  (forall s,
      regex_test schemaEmailRegex s = true ->
      regex_test emailRegex s = true)
  /\ exists s,
       regex_test emailRegex s = true
       /\ regex_test schemaEmailRegex s = false.
Proof.
  split.
  - intros s H. apply emailRegex_shape.
    destruct (schemaEmailRegex_parts s H)
      as (x & y & z & E & Hx & Hy & Hz & Ax & Ay & Az).
    exists x, y, z. repeat split; try assumption;
      apply label_char_not_space_at; assumption.
  - exists "jo+site@x.com". split; reflexivity.
Qed.

(** X2.  A string that the schema accepts as email is made of letters,
    digits, underscores, dots and dashes around exactly one ['@']. *)
Theorem schema_email_alphabet (s : string) :
  regex_test schemaEmailRegex s = true ->
  Forall (fun c => is_schema_email_char c = true) (list_ascii_of_string s)
  /\ count_occ ascii_dec (list_ascii_of_string s) "@"%char = 1%nat.
Proof.
  intro H.
  destruct (schemaEmailRegex_parts s H)
    as (x & y & z & -> & _ & _ & _ & Ax & Ay & Az).
  assert (Hchar : forall l, Forall label_char l ->
            Forall (fun c => is_schema_email_char c = true) l).
  { intro l. apply Forall_impl. unfold label_char, is_schema_email_char.
    intros c ->. reflexivity. }
  assert (Hcount : forall l, Forall label_char l ->
            count_occ ascii_dec l "@"%char = 0%nat).
  { intros l Hl. apply count_occ_not_In. intro Hin.
    rewrite Forall_forall in Hl. apply Hl in Hin. discriminate Hin. }
  assert (Hdot : label_char "."%char) by reflexivity.
  split.
  - apply Forall_app. split; [auto |]. constructor; [reflexivity |].
    apply Forall_app. split; [auto |]. constructor; [reflexivity | auto].
  - rewrite count_occ_app, (Hcount x Ax). simpl.
    rewrite count_occ_app, (Hcount y Ay). simpl.
    rewrite (Hcount z Az). reflexivity.
Qed.

Lemma schema_email_alphabet_witness :
  regex_test schemaEmailRegex "jo.smith@mail.example.org" = true
  /\ count_occ ascii_dec (list_ascii_of_string "jo.smith@mail.example.org")
       "@"%char = 1%nat.
Proof.
  split; [reflexivity |].
  apply (schema_email_alphabet "jo.smith@mail.example.org"). reflexivity.
Defined.

Lemma string_length_list (s : string) :
  String.length s = length (list_ascii_of_string s).
Proof. induction s as [| c s IH]; simpl; [reflexivity | rewrite IH; reflexivity]. Qed.

Lemma phoneRegex_shape (s : string) :
  regex_test phoneRegex s = true <-> phone_shape s.
Proof.
  unfold regex_test, phone_shape. rewrite matchb_Matches. unfold phoneRegex.
  split.
  - intro H.
    apply Matches_Seq_inv in H as (sign & s1 & E & Ms & M1).
    apply Matches_Seq_inv in M1 as (d & ds & -> & Md & Mds).
    apply Matches_Class_inv in Md as (c & -> & Hc).
    apply Matches_UpTo_Class in Mds as [Hall Hlen].
    exists sign, c, ds. rewrite E. repeat split; try assumption.
    apply Matches_Opt in Ms as [-> | Ms]; [left; reflexivity |].
    apply Matches_Chr in Ms. right. exact Ms.
  - intros (sign & d & ds & -> & Hsign & Hd & Hall & Hlen).
    constructor.
    + apply Matches_Opt.
      destruct Hsign as [-> | ->];
        [left; reflexivity | right; apply Matches_Chr; reflexivity].
    + change (d :: ds) with ([d] ++ ds).
      constructor; [constructor; exact Hd |].
      apply Matches_UpTo_Class. split; assumption.
Qed.

(** X3.  The validator of [phone] accepts a value exactly when it is
    falsy (absent or empty), or when its string form is an optional ['+'],
    a digit from 1 to 9 and at most fifteen further digits; an accepted
    non-empty phone thus has at most 17 characters, and no space, dash or
    parenthesis. *)
Theorem phone_validator_accepts (v : jsval) :
  (phone_validator v = Some true
   <-> truthy v = false
       \/ exists s, to_string v = Some s /\ phone_shape s)
  /\ (forall s,
         v = VStr s -> phone_validator v = Some true ->
         (String.length s <= 17)%nat
         /\ Forall (fun c => is_digit c = true \/ c = "+"%char)
              (list_ascii_of_string s)).
Proof.
  assert (Hiff : phone_validator v = Some true
                 <-> truthy v = false
                     \/ exists s, to_string v = Some s /\ phone_shape s).
  { unfold phone_validator, test_value.
    destruct (truthy v) eqn:Ht; simpl.
    - split.
      + intro H. right. destruct (to_string v) as [s |]; [| discriminate].
        simpl in H. injection H as H. exists s. split; [reflexivity |].
        apply phoneRegex_shape, H.
      + intros [H | (s & -> & Hs)]; [discriminate |].
        simpl. apply phoneRegex_shape in Hs. rewrite Hs. reflexivity.
    - split; auto. }
  split; [exact Hiff |].
  intros s -> H. apply Hiff in H as [H | (s' & E & Hs)].
  - simpl in H. apply negb_false_iff, String.eqb_eq in H. subst s.
    split; [simpl; lia | constructor].
  - simpl in E. injection E as <-.
    destruct Hs as (sign & d & ds & E & Hsign & Hd & Hall & Hlen).
    assert (Hnz : is_digit d = true).
    { revert Hd. unfold is_nonzero_digit, is_digit. cbv zeta.
      rewrite !andb_true_iff, !Nat.leb_le. lia. }
    split.
    + rewrite string_length_list, E, length_app. simpl.
      destruct Hsign as [-> | ->]; simpl; lia.
    + rewrite E. apply Forall_app. split.
      * destruct Hsign as [-> | ->]; [constructor |].
        constructor; [right; reflexivity | constructor].
      * constructor; [left; exact Hnz |].
        eapply Forall_impl; [| exact Hall]. simpl. auto.
Qed.

(** ** Replacing the credentials of a connection string *)

Lemma longest_match_None (s : list ascii) :
  forall r, longest_match r s = None ->
            forall n, ~ Matches r (firstn n s).
Proof.
  induction s as [| c s IH]; intros r H n M.
  - rewrite firstn_nil in M. apply nullable_Matches in M.
    simpl in H. rewrite M in H. discriminate.
  - simpl in H.
    destruct (longest_match (deriv c r) s) eqn:E; [discriminate |].
    destruct n as [| n]; simpl in M.
    + apply nullable_Matches in M. rewrite M in H. discriminate.
    + apply deriv_Matches in M. exact (IH _ E n M).
Qed.

Lemma longest_match_Some (s : list ascii) :
  forall r n,
    longest_match r s = Some n ->
    Matches r (firstn n s) /\ (n <= length s)%nat
    /\ forall m, (n < m)%nat -> (m <= length s)%nat ->
                 ~ Matches r (firstn m s).
Proof.
  induction s as [| c s IH]; intros r n H; simpl in H.
  - destruct (nullable r) eqn:En; [| discriminate]. injection H as <-.
    split; [apply nullable_Matches, En |]. split; [simpl; lia |].
    intros m Hm Hlen. simpl in Hlen. lia.
  - destruct (longest_match (deriv c r) s) as [k |] eqn:E.
    + injection H as <-. destruct (IH _ _ E) as (M & Hk & Hmax).
      split; [simpl; apply deriv_Matches, M |]. split; [simpl; lia |].
      intros m Hm Hlen. destruct m as [| m]; [lia |]. simpl. intro M'.
      apply deriv_Matches in M'. apply (Hmax m); simpl in Hlen; try lia.
      exact M'.
    + destruct (nullable r) eqn:En; [| discriminate]. injection H as <-.
      split; [apply nullable_Matches, En |]. split; [simpl; lia |].
      intros m Hm Hlen. destruct m as [| m]; [lia |]. simpl. intro M'.
      apply deriv_Matches in M'. exact (longest_match_None _ _ E m M').
Qed.

Lemma longest_match_complete (r : regex) (s : list ascii) (n : nat) :
  Matches r (firstn n s) -> (n <= length s)%nat ->
  (forall m, (n < m)%nat -> (m <= length s)%nat ->
             ~ Matches r (firstn m s)) ->
  longest_match r s = Some n.
Proof.
  intros M Hn Hmax. destruct (longest_match r s) as [k |] eqn:E.
  - destruct (longest_match_Some _ _ _ E) as (Mk & Hk & Hkmax).
    destruct (Nat.lt_trichotomy k n) as [Hlt | [-> | Hgt]].
    + exfalso. exact (Hkmax n Hlt Hn M).
    + reflexivity.
    + exfalso. exact (Hmax k Hgt Hk Mk).
  - exfalso. exact (longest_match_None _ _ E n M).
Qed.

Lemma credentialsRegex_Matches (t : list ascii) :
  Matches credentialsRegex t
  <-> exists hidden,
        t = "/"%char :: "/"%char :: hidden ++ ["@"%char]
        /\ Forall (fun c => is_any_char c = true) hidden.
Proof.
  unfold credentialsRegex. split.
  - intro H.
    apply Matches_Seq_inv in H as (a & t1 & -> & Ma & M1).
    apply Matches_Seq_inv in M1 as (b & t2 & -> & Mb & M2).
    apply Matches_Seq_inv in M2 as (hidden & e & -> & Mh & Me).
    apply Matches_Chr in Ma, Mb, Me. subst a b e.
    apply Matches_Star_Class in Mh. exists hidden. auto.
  - intros (hidden & -> & Hall).
    change ("/"%char :: "/"%char :: hidden ++ ["@"%char])
      with (["/"%char] ++ ["/"%char] ++ hidden ++ ["@"%char]).
    repeat constructor; try (apply Matches_Chr; reflexivity).
    apply Matches_Star_Class, Hall.
Qed.

Lemma last_of_app (a : ascii) (l1 l2 l3 : list ascii) :
  l1 ++ [a] = l2 ++ l3 -> l3 <> [] -> In a l3.
Proof.
  intros E Hne. destruct (exists_last Hne) as (l3' & b & ->).
  rewrite app_assoc in E. apply app_inj_tail in E as [_ ->].
  apply in_or_app. right. left. reflexivity.
Qed.

Lemma In_firstn (n : nat) (a : ascii) (l : list ascii) :
  In a (firstn n l) -> In a l.
Proof.
  intro H. rewrite <- (firstn_skipn n l). apply in_or_app. left. exact H.
Qed.

Lemma replace_first_cons (r : regex) (by_ : list ascii) (c : ascii)
    (rest : list ascii) :
  replace_first r by_ (c :: rest)
  = match longest_match r (c :: rest) with
    | Some n => by_ ++ skipn n (c :: rest)
    | None => c :: replace_first r by_ rest
    end.
Proof. reflexivity. Qed.

Lemma replace_first_no_at (by_ s : list ascii) :
  ~ In "@"%char s -> replace_first credentialsRegex by_ s = s.
Proof.
  induction s as [| c s IH]; intro Hnot.
  - reflexivity.
  - rewrite replace_first_cons.
    destruct (longest_match credentialsRegex (c :: s)) as [n |] eqn:E.
    + exfalso. destruct (longest_match_Some _ _ _ E) as (M & _).
      apply credentialsRegex_Matches in M as (hidden & Eq & _).
      apply Hnot. apply (In_firstn n). rewrite Eq.
      right. right. apply in_or_app. right. left. reflexivity.
    + rewrite IH; [reflexivity |]. intro H. apply Hnot. right. exact H.
Qed.

Lemma replace_first_skip (by_ pre rest : list ascii) :
  ~ In "/"%char pre ->
  replace_first credentialsRegex by_ (pre ++ rest)
  = pre ++ replace_first credentialsRegex by_ rest.
Proof.
  induction pre as [| c pre IH]; intro Hnot; [reflexivity |].
  simpl app. rewrite replace_first_cons.
  destruct (longest_match credentialsRegex (c :: pre ++ rest)) as [n |] eqn:E.
  - exfalso. destruct (longest_match_Some _ _ _ E) as (M & _).
    apply credentialsRegex_Matches in M as (hidden & Eq & _).
    destruct n as [| n]; simpl in Eq; [discriminate |].
    injection Eq as -> _. apply Hnot. left. reflexivity.
  - rewrite IH; [reflexivity |]. intro H. apply Hnot. right. exact H.
Qed.

Lemma replace_first_credentials (by_ cred post : list ascii) :
  Forall (fun c => is_any_char c = true) cred ->
  ~ In "@"%char post ->
  replace_first credentialsRegex by_
    ("/"%char :: "/"%char :: cred ++ "@"%char :: post)
  = by_ ++ post.
Proof.
  intros Hcred Hpost.
  set (matched := "/"%char :: "/"%char :: cred ++ ["@"%char]).
  assert (Es : "/"%char :: "/"%char :: cred ++ "@"%char :: post
               = matched ++ post).
  { unfold matched. simpl. rewrite <- app_assoc. reflexivity. }
  assert (Hlong : longest_match credentialsRegex (matched ++ post)
                  = Some (length matched)).
  { apply longest_match_complete.
    - rewrite <- (Nat.add_0_r (length matched)), firstn_app_2.
      simpl firstn. rewrite app_nil_r.
      apply credentialsRegex_Matches. exists cred. auto.
    - rewrite length_app. lia.
    - intros m Hm Hlen M. rewrite length_app in Hlen.
      rewrite firstn_app, (firstn_all2 matched) in M by lia.
      apply credentialsRegex_Matches in M as (hidden & Eq & _).
      apply Hpost. apply (In_firstn (m - length matched)).
      apply (last_of_app "@"%char ("/"%char :: "/"%char :: hidden) matched).
      + simpl. simpl in Eq. rewrite <- Eq. reflexivity.
      + destruct post as [| p post].
        * change (length (@nil ascii)) with 0%nat in Hlen. lia.
        * destruct (m - length matched)%nat eqn:Ed; [lia | discriminate]. }
  rewrite Es. unfold matched at 1. simpl app. rewrite replace_first_cons.
  change ("/"%char :: "/"%char :: (cred ++ ["@"%char]) ++ post)
    with (matched ++ post).
  rewrite Hlong, skipn_app, skipn_all, Nat.sub_diag. reflexivity.
Qed.

Lemma list_ascii_of_string_app (a b : string) :
  list_ascii_of_string (a ++ b)%string
  = list_ascii_of_string a ++ list_ascii_of_string b.
Proof.
  induction a as [| c a IH]; simpl; [reflexivity | rewrite IH; reflexivity].
Qed.

Lemma string_of_list_ascii_app (a b : list ascii) :
  string_of_list_ascii (a ++ b)
  = (string_of_list_ascii a ++ string_of_list_ascii b)%string.
Proof.
  induction a as [| c a IH]; simpl; [reflexivity | rewrite IH; reflexivity].
Qed.

Lemma hide_credentials_form (pre cred post : string) :
  ~ In "/"%char (list_ascii_of_string pre) ->
  Forall (fun c => is_any_char c = true) (list_ascii_of_string cred) ->
  ~ In "@"%char (list_ascii_of_string post) ->
  hide_credentials (pre ++ "//" ++ cred ++ "@" ++ post)
  = (pre ++ "//***:***@" ++ post)%string.
Proof.
  intros Hpre Hcred Hpost. unfold hide_credentials, String_replace.
  rewrite !list_ascii_of_string_app.
  change (list_ascii_of_string "//") with ["/"%char; "/"%char].
  change (list_ascii_of_string "@") with ["@"%char].
  rewrite replace_first_skip by exact Hpre.
  cbn [app]. rewrite replace_first_credentials by assumption.
  rewrite !string_of_list_ascii_app, !string_of_list_ascii_of_string.
  reflexivity.
Qed.

(** X4.  In a connection string [pre//cred@post], where [pre] (the scheme)
    has no ['/'], the credentials are on one line and nothing after them
    contains ['@'], what is logged is [pre//***:***@post]: the credentials
    are replaced whatever they are, and hiding twice changes nothing. *)
Theorem hide_credentials_hides (pre cred post : string) :
  ~ In "/"%char (list_ascii_of_string pre) ->
  Forall (fun c => is_any_char c = true) (list_ascii_of_string cred) ->
  ~ In "@"%char (list_ascii_of_string post) ->
  hide_credentials (pre ++ "//" ++ cred ++ "@" ++ post)
  = (pre ++ "//***:***@" ++ post)%string
  /\ hide_credentials
       (hide_credentials (pre ++ "//" ++ cred ++ "@" ++ post))
     = hide_credentials (pre ++ "//" ++ cred ++ "@" ++ post).
Proof.
  intros Hpre Hcred Hpost.
  rewrite (hide_credentials_form pre cred post Hpre Hcred Hpost).
  split; [reflexivity |].
  apply (hide_credentials_form pre "***:***" post Hpre); [| exact Hpost].
  repeat constructor.
Qed.

Arguments hide_credentials : simpl never.

Lemma not_In_by_test (a : ascii) (l : list ascii) :
  forallb (fun c => negb (Ascii.eqb c a)) l = true -> ~ In a l.
Proof.
  intros H Hin. rewrite forallb_forall in H. apply H in Hin.
  rewrite Ascii.eqb_refl in Hin. discriminate.
Qed.

Lemma hide_credentials_hides_witness :
  hide_credentials
    ("mongodb+srv:" ++ "//" ++ "admin:s3cr3t" ++ "@"
       ++ "cluster0.example.net/paint")
  = ("mongodb+srv:" ++ "//***:***@" ++ "cluster0.example.net/paint")%string
  /\ hide_credentials
       (hide_credentials
          ("mongodb+srv:" ++ "//" ++ "admin:s3cr3t" ++ "@"
             ++ "cluster0.example.net/paint"))
     = hide_credentials
         ("mongodb+srv:" ++ "//" ++ "admin:s3cr3t" ++ "@"
            ++ "cluster0.example.net/paint").
Proof.
  refine (hide_credentials_hides "mongodb+srv:" "admin:s3cr3t"
            "cluster0.example.net/paint" _ _ _).
  - apply not_In_by_test. vm_compute. reflexivity.
  - repeat constructor.
  - apply not_In_by_test. vm_compute. reflexivity.
Defined.

(** X5.  A connection string without ['@'], such as the default local
    one, is logged unchanged. *)
Theorem hide_credentials_without_at (mongoURI : string) :
  ~ In "@"%char (list_ascii_of_string mongoURI) ->
  hide_credentials mongoURI = mongoURI.
Proof.
  intro H. unfold hide_credentials, String_replace.
  rewrite replace_first_no_at by exact H.
  apply string_of_list_ascii_of_string.
Qed.

Lemma hide_credentials_without_at_witness :
  hide_credentials default_mongoURI = default_mongoURI.
Proof.
  refine (hide_credentials_without_at default_mongoURI _).
  apply not_In_by_test. vm_compute. reflexivity.
Defined.

(** ** Every request is answered *)

Lemma submit_calls clock NODE_ENV srv rq b db w :
  mongoCalls (snd (handle clock NODE_ENV srv (Submit rq b db) w))
  = if ((submission_status b =? 200) && (readyState w =? 1))%bool
    then mongoCalls w ++ [create_call b]
    else mongoCalls w.
Proof.
  unfold submission_status, create_call.
  destruct srv; unfold_handlers;
    destruct (required_present b); unfold_monad; cbn; try reflexivity;
    destruct (test_value emailRegex (obj_get b "email")) as [[|] |]; cbn;
    try reflexivity;
    destruct (readyState w =? 1); cbn; try reflexivity;
    try destruct (is_development NODE_ENV); cbn;
    destruct (create_outcome db); reflexivity.
Qed.

(** X6.  The status of the answer to a submission is read off its body
    alone: 400 when a required field is missing or the email, converted to
    a string, lacks the [x@y.z] shape, 500 when the email cannot be
    converted, 200 otherwise; the server, the clock, the state of the
    process and the behaviour of the primary store have no part in it, so
    that a valid submission is never refused. *)
Theorem submission_status_from_body clock NODE_ENV srv rq b db w :
  exists resp w',
    handle clock NODE_ENV srv (Submit rq b db) w = (Normal resp, w')
    /\ statusCode resp = submission_status b
    /\ (passes_upfront_checks b <-> statusCode resp = 200).
Proof.
  unfold submission_status, passes_upfront_checks.
  destruct (required_present b) eqn:Hreq.
  - destruct (test_value emailRegex (obj_get b "email")) as [[|] |] eqn:Hm.
    + assert (Hvalid : passes_upfront_checks b) by (split; assumption).
      destruct (Z.eq_dec (readyState w) 1) as [Hst | Hst];
        [destruct (create_outcome db) as [doc | e] eqn:Hdb |].
      * destruct (submit_primary clock NODE_ENV srv rq b db w doc Hvalid
                    Hst Hdb) as (w' & H & _).
        eexists. exists w'. split; [exact H |]. simpl. intuition.
      * destruct (submit_fallback clock NODE_ENV srv rq b db w Hvalid)
          as (w' & k & H & _); [right; eauto |].
        eexists. exists w'. split; [exact H |]. simpl. intuition.
      * destruct (submit_fallback clock NODE_ENV srv rq b db w Hvalid
                    (or_introl Hst)) as (w' & k & H & _).
        eexists. exists w'. split; [exact H |]. simpl. intuition.
    + destruct (submit_bad_email clock NODE_ENV srv rq b db w Hreq Hm)
        as (w' & H & _).
      eexists. exists w'. split; [exact H |]. simpl.
      split; [reflexivity |]. split; [intros [_ ?] |]; discriminate.
    + destruct (submit_throws clock NODE_ENV srv rq b db w Hreq Hm)
        as (w' & H & _).
      eexists. exists w'. split; [exact H |]. simpl.
      split; [reflexivity |]. split; [intros [_ ?] |]; discriminate.
  - destruct (submit_missing clock NODE_ENV srv rq b db w Hreq)
      as (w' & H & _).
    eexists. exists w'. split; [exact H |]. simpl.
    split; [reflexivity |]. split; [intros [? _] |]; discriminate.
Qed.


(** X8.  A submission makes at most one call on the primary store, and
    never retries: [Contact.create] is called once, with the five fields
    of the body, exactly when the submission passes the upfront checks
    and the connection is established; otherwise no call is made. *)
Theorem one_primary_write_attempt clock NODE_ENV srv rq b db w :
  (passes_upfront_checks b /\ readyState w = 1 ->
   mongoCalls (snd (handle clock NODE_ENV srv (Submit rq b db) w))
   = mongoCalls w ++ [create_call b])
  /\ (~ (passes_upfront_checks b /\ readyState w = 1) ->
      mongoCalls (snd (handle clock NODE_ENV srv (Submit rq b db) w))
      = mongoCalls w).
Proof.
  rewrite submit_calls. unfold submission_status, passes_upfront_checks.
  destruct (Z.eqb_spec (readyState w) 1) as [Hst | Hst];
    (destruct (required_present b);
     [destruct (test_value emailRegex (obj_get b "email")) as [[|] |] |]);
    simpl; split; intro H; try reflexivity;
    solve [ destruct H as [[? ?] ?]; congruence
          | exfalso; apply H; auto ].
Qed.

Lemma one_primary_write_attempt_witness :
  mongoCalls
    (snd (handle clock_ms None PlainServer
            (Submit rq_1 body_A rejecting_primary) world_connected))
  = [create_call body_A]
  /\ mongoCalls
       (snd (handle clock_ms None LoggedServer
               (Submit rq_1 body_C rejecting_primary) world_connected))
     = [].
Proof.
  split.
  - apply (proj1 (one_primary_write_attempt clock_ms None PlainServer rq_1
                    body_A rejecting_primary world_connected)).
    repeat split; reflexivity.
  - apply (proj2 (one_primary_write_attempt clock_ms None LoggedServer rq_1
                    body_C rejecting_primary world_connected)).
    intros [[H _] _]. discriminate H.
Defined.

(** X9.  No request leaves an error uncaught: on either server every
    request (a submission, a listing, a body that the parser rejects) gets
    a response, with status 200, 400, 404 or 500, and what was on the
    console before stays there. *)
Theorem every_request_answered clock NODE_ENV srv r w :
  exists resp w' lines,
    handle clock NODE_ENV srv r w = (Normal resp, w')
    /\ In (statusCode resp) [200; 400; 404; 500]
    /\ console w' = console w ++ lines.
Proof.
  destruct r as [rq b db | rq db | rq method url e].
  - destruct srv; unfold_handlers;
      destruct (required_present b); unfold_monad; cbn;
      try (destruct (test_value emailRegex (obj_get b "email"))
             as [[|] |]; cbn);
      try (destruct (readyState w =? 1); cbn);
      try (destruct (is_development NODE_ENV); cbn);
      try (destruct (create_outcome db); cbn);
      repeat rewrite <- app_assoc;
      (eexists; eexists; eexists;
       split; [reflexivity |]; split;
       [simpl; tauto | first [reflexivity | symmetry; apply app_nil_r]]).
  - destruct srv; unfold_handlers; unfold_monad; cbn;
      try (destruct (readyState w =? 1) eqn:Hst; cbn);
      try (destruct (find_outcome db); cbn);
      try rewrite Hst;
      try (destruct (ready_after_find db =? 1); cbn);
      repeat rewrite <- app_assoc;
      (eexists; eexists; eexists;
       split; [reflexivity |]; split;
       [simpl; tauto | first [reflexivity | symmetry; apply app_nil_r]]).
  - destruct srv; unfold_handlers; unfold_monad; cbn;
      try (destruct (is_development NODE_ENV); cbn);
      repeat rewrite <- app_assoc;
      (eexists; eexists; eexists;
       split; [reflexivity |]; split;
       [simpl; tauto | first [reflexivity | symmetry; apply app_nil_r]]).
Qed.

(** ** Listing from the fallback list *)

Lemma sort_insert_saved_at (t : Z) (x : contact) (l : list contact) :
  saved_at t (sort_insert by_submittedAt_desc x l) = saved_at t (x :: l).
Proof.
  unfold saved_at. induction l as [| y l IH]; [reflexivity |].
  simpl sort_insert. unfold by_submittedAt_desc at 1.
  destruct (submittedAt y - submittedAt x <=? 0) eqn:E; [reflexivity |].
  apply Z.leb_gt in E. simpl filter in *.
  destruct (submittedAt x =? t) eqn:Ex.
  - apply Z.eqb_eq in Ex.
    assert (Ey : (submittedAt y =? t) = false) by (apply Z.eqb_neq; lia).
    rewrite Ey, IH. reflexivity.
  - destruct (submittedAt y =? t); rewrite IH; reflexivity.
Qed.

Lemma js_sort_saved_at (t : Z) (l : list contact) :
  saved_at t (js_sort by_submittedAt_desc l) = saved_at t l.
Proof.
  unfold js_sort. induction l as [| x l IH]; [reflexivity |].
  simpl fold_right. rewrite sort_insert_saved_at.
  unfold saved_at in *. simpl. rewrite IH. reflexivity.
Qed.

(** X10.  A listing served from the fallback list keeps the records that
    have the same [submittedAt] in the order in which they were stored:
    records saved within one millisecond are listed in insertion order. *)
Theorem listing_keeps_order_of_ties db w t :
  served_from_fallback w db ->
  exists data source w',
    get_api_contacts db w
      = (Normal (mkResponse 200 (Listing data source)), w')
    /\ saved_at t data = saved_at t (fallbackContacts w).
Proof.
  intro Hserved.
  destruct (list_fallback db w Hserved) as (w' & src & H & _).
  eexists. exists src, w'. split; [exact H |]. apply js_sort_saved_at.
Qed.

Lemma listing_keeps_order_of_ties_witness :
  served_from_fallback
    (run clock_same_ms None PlainServer two_saves world_0) read_ok
  /\ exists data source w',
       get_api_contacts read_ok
         (run clock_same_ms None PlainServer two_saves world_0)
       = (Normal (mkResponse 200 (Listing data source)), w')
       /\ saved_at 1700000000000 data
          = saved_at 1700000000000
              (fallbackContacts
                 (run clock_same_ms None PlainServer two_saves world_0)).
Proof.
  assert (Hserved : served_from_fallback
                      (run clock_same_ms None PlainServer two_saves world_0)
                      read_ok) by (left; discriminate).
  split; [exact Hserved |].
  exact (listing_keeps_order_of_ties read_ok _ 1700000000000 Hserved).
Defined.

(** X11.  Listing is idempotent on the fallback tier: after one listing
    served from the fallback list, a second such listing returns the same
    records in the same order and leaves the stored list as it is. *)
Theorem listing_twice db1 db2 w :
  served_from_fallback w db1 ->
  served_from_fallback (snd (get_api_contacts db1 w)) db2 ->
  exists data source1 source2 w1 w2,
    get_api_contacts db1 w
      = (Normal (mkResponse 200 (Listing data source1)), w1)
    /\ get_api_contacts db2 w1
       = (Normal (mkResponse 200 (Listing data source2)), w2)
    /\ fallbackContacts w2 = fallbackContacts w1.
Proof.
  intros H1 H2.
  destruct (list_fallback db1 w H1) as (w1 & src1 & E1 & _ & Hf1 & _).
  rewrite E1 in H2. cbn [snd] in H2.
  destruct (list_fallback db2 w1 H2) as (w2 & src2 & E2 & _ & Hf2 & _).
  assert (Hfixed : js_sort by_submittedAt_desc (fallbackContacts w1)
                   = fallbackContacts w1).
  { apply js_sort_fixed. rewrite Hf1. apply js_sort_descending. }
  rewrite Hfixed in E2, Hf2. rewrite Hf1 in E2.
  eexists. exists src1, src2, w1, w2.
  split; [exact E1 |]. split; [exact E2 | exact Hf2].
Qed.

Lemma listing_twice_witness :
  exists data source1 source2 w1 w2,
    get_api_contacts read_ok world_two_saved
      = (Normal (mkResponse 200 (Listing data source1)), w1)
    /\ get_api_contacts read_fails w1
       = (Normal (mkResponse 200 (Listing data source2)), w2)
    /\ fallbackContacts w2 = fallbackContacts w1.
Proof.
  apply (listing_twice read_ok read_fails world_two_saved).
  - left. discriminate.
  - left. discriminate.
Defined.

(** ** What is logged of a body *)

Lemma obj_get_set_same (o : jsobj) (k : string) (v : jsval) :
  obj_get (obj_set o k v) k = v.
Proof.
  induction o as [| [k' v'] o IH]; simpl.
  - rewrite String.eqb_refl. reflexivity.
  - destruct (String.eqb k' k) eqn:E; simpl.
    + rewrite String.eqb_refl. reflexivity.
    + rewrite E. exact IH.
Qed.

Lemma obj_get_set_other (o : jsobj) (k k' : string) (v : jsval) :
  k' <> k -> obj_get (obj_set o k v) k' = obj_get o k'.
Proof.
  intro Hne. induction o as [| [k0 v0] o IH]; simpl.
  - apply String.eqb_neq in Hne. rewrite String.eqb_sym, Hne. reflexivity.
  - destruct (String.eqb k0 k) eqn:E; simpl.
    + apply String.eqb_eq in E. subst k0.
      apply String.eqb_neq in Hne. rewrite String.eqb_sym, Hne.
      reflexivity.
    + destruct (String.eqb k0 k'); [reflexivity | exact IH].
Qed.

Lemma obj_set_keys (o : jsobj) (k : string) (v : jsval) :
  has_key o k = true -> map fst (obj_set o k v) = map fst o.
Proof.
  induction o as [| [k0 v0] o IH]; simpl; [discriminate |].
  destruct (String.eqb k0 k) eqn:E; simpl.
  - intros _. apply String.eqb_eq in E. subst k0. reflexivity.
  - intro H. rewrite IH by exact H. reflexivity.
Qed.

(** X12.  Redaction changes the [message] property and nothing else: every
    other property of the logged body, the name, the email and the phone
    among them, is the one of the request, in the same position; the
    message is logged as "[REDACTED]" when it is truthy and as [undefined]
    otherwise. *)
Theorem redaction_touches_message_only (b : jsobj) :
  (forall k, k <> "message" -> obj_get (redacted b) k = obj_get b k)
  /\ (has_key b "message" = true -> map fst (redacted b) = map fst b)
  /\ obj_get (redacted b) "message"
     = (if truthy (obj_get b "message") then VStr "[REDACTED]"
        else VUndefined).
Proof.
  unfold redacted. split; [| split].
  - intros k Hk. apply obj_get_set_other. exact Hk.
  - apply obj_set_keys.
  - apply obj_get_set_same.
Qed.

(** X13.  The shape check of the email subsumes its presence check: a
    value that passes [emailRegex] is truthy, whatever its type. *)
Theorem email_check_implies_presence (v : jsval) :
  test_value emailRegex v = Some true -> truthy v = true.
Proof.
  destruct v as [| | [|] | z | s | items | props]; simpl;
    try reflexivity; try (vm_compute; discriminate).
  - destruct (z =? 0) eqn:E; [| reflexivity].
    apply Z.eqb_eq in E. subst z. vm_compute. discriminate.
  - destruct s; [vm_compute; discriminate | reflexivity].
Qed.

Lemma email_check_implies_presence_witness :
  test_value emailRegex (VArr [VStr "jo@x.com"]) = Some true
  /\ truthy (VArr [VStr "jo@x.com"]) = true.
Proof.
  assert (H : test_value emailRegex (VArr [VStr "jo@x.com"]) = Some true)
    by (vm_compute; reflexivity).
  split; [exact H | exact (email_check_implies_presence _ H)].
Defined.

(** ** The console of the instrumented server *)

Ltac added_lines :=
  unfold new_lines; cbn; repeat rewrite <- app_assoc;
  first [rewrite skipn_console | rewrite skipn_all]; cbn.

(** X14.  Outside the development configuration no request ever prints a
    DEBUG line, on either server. *)
Theorem no_debug_outside_development clock NODE_ENV srv r w :
  is_development NODE_ENV = false ->
  Forall (fun l => level l <> "DEBUG")
    (new_lines w (snd (handle clock NODE_ENV srv r w))).
Proof.
  intro Hdev. destruct r as [rq b db | rq db | rq method url e].
  - destruct srv; unfold_handlers; unfold logger_debug; rewrite ?Hdev;
      destruct (required_present b); unfold_monad; cbn;
      try (destruct (test_value emailRegex (obj_get b "email"))
             as [[|] |]; cbn);
      try (destruct (readyState w =? 1); cbn);
      try (destruct (create_outcome db); cbn);
      added_lines; repeat constructor; discriminate.
  - destruct srv; unfold_handlers; unfold_monad; cbn;
      try (destruct (readyState w =? 1); cbn);
      try (destruct (find_outcome db); cbn);
      added_lines; repeat constructor; discriminate.
  - destruct srv; unfold_handlers; rewrite ?Hdev; unfold_monad; cbn;
      added_lines; repeat constructor; discriminate.
Qed.

Lemma no_debug_outside_development_witness :
  Forall (fun l => level l <> "DEBUG")
    (new_lines world_connected
       (snd (handle clock_ms (Some "production") LoggedServer
               (Submit rq_1 body_A rejecting_primary) world_connected)))
  /\ Exists (fun l => level l = "DEBUG")
       (new_lines world_connected
          (snd (handle clock_ms (Some "development") LoggedServer
                  (Submit rq_1 body_A rejecting_primary) world_connected))).
Proof.
  split.
  - apply (no_debug_outside_development clock_ms (Some "production")
             LoggedServer (Submit rq_1 body_A rejecting_primary)
             world_connected).
    reflexivity.
  - vm_compute. do 2 apply Exists_cons_tl. apply Exists_cons_hd.
    reflexivity.
Defined.

(** X15.  On the instrumented server every request is bracketed in the
    log: the first line it prints is "Incoming request", the last is
    "Request completed", both carry the request id, and the last reports
    the status code of the response that was sent. *)
Theorem request_logging_brackets clock NODE_ENV r w :
  exists resp w' first last,
    handle clock NODE_ENV LoggedServer r w = (Normal resp, w')
    /\ hd_error (new_lines w w') = Some first
    /\ hd_error (rev (new_lines w w')) = Some last
    /\ text first = "Incoming request"
    /\ text last = "Request completed"
    /\ logged_values "requestId" [first]
       = [VStr (requestId (request_info r))]
    /\ logged_values "requestId" [last]
       = [VStr (requestId (request_info r))]
    /\ logged_values "statusCode" [last] = [VNum (statusCode resp)].
Proof.
  destruct r as [rq b db | rq db | rq method url e]; unfold_handlers.
  - destruct (required_present b); unfold_monad; cbn;
      try (destruct (test_value emailRegex (obj_get b "email"))
             as [[|] |]; cbn);
      try (destruct (readyState w =? 1); cbn);
      try (destruct (is_development NODE_ENV); cbn);
      try (destruct (create_outcome db); cbn);
      (eexists; eexists; eexists; eexists; split; [reflexivity |]);
      added_lines; repeat split; reflexivity.
  - unfold_monad; cbn.
    (eexists; eexists; eexists; eexists; split; [reflexivity |]);
      added_lines; repeat split; reflexivity.
  - unfold_monad; cbn; destruct (is_development NODE_ENV); cbn;
      (eexists; eexists; eexists; eexists; split; [reflexivity |]);
      added_lines; repeat split; reflexivity.
Qed.

(** ** Connecting to the primary store *)




(** ** The status routes of [src/index.js] *)

(** X17.  The status routes change neither tier of the store, and what
    they report agrees with what a submission does in the same state:
    "connected" exactly when a submission that passes the upfront checks
    calls the primary store, "disconnected" exactly when it is saved
    without any call on the primary store. *)
Theorem status_routes_agree_with_submissions
    clock NODE_ENV srv rq b db w :
  passes_upfront_checks b ->
  exists root health w1 w2,
    get_root w = (Normal root, w1)
    /\ get_health clock w = (Normal health, w2)
    /\ store_untouched w w1 /\ store_untouched w w2
    /\ root_mongodb root = health_mongodb health
    /\ (root_mongodb root = "connected"
        <-> mongoCalls (snd (handle clock NODE_ENV srv (Submit rq b db) w))
            = mongoCalls w ++ [create_call b])
    /\ (root_mongodb root = "disconnected"
        <-> mongoCalls (snd (handle clock NODE_ENV srv (Submit rq b db) w))
            = mongoCalls w).
Proof.
  intros [Hreq Hmail].
  pose proof (submit_calls clock NODE_ENV srv rq b db w) as Hcalls.
  unfold submission_status in Hcalls. rewrite Hreq, Hmail in Hcalls.
  cbn [Z.eqb Pos.eqb andb] in Hcalls.
  remember (mongoCalls (snd (handle clock NODE_ENV srv (Submit rq b db) w)))
    as calls eqn:Ec. clear Ec.
  unfold get_root, get_health, mongodb_status. unfold_monad. cbn.
  eexists. eexists. eexists. eexists.
  split; [reflexivity |]. split; [reflexivity |].
  split; [repeat split |]. split; [repeat split |]. cbn.
  split; [reflexivity |]. rewrite Hcalls.
  destruct (readyState w =? 1);
    split; split; intro H; try reflexivity; try discriminate;
    exfalso; apply (f_equal (@length _)) in H;
    rewrite length_app in H; simpl in H; lia.
Qed.

Lemma status_routes_agree_with_submissions_witness :
  exists root health w1 w2,
    get_root world_connected = (Normal root, w1)
    /\ get_health clock_ms world_connected = (Normal health, w2)
    /\ store_untouched world_connected w1
    /\ store_untouched world_connected w2
    /\ root_mongodb root = health_mongodb health
    /\ (root_mongodb root = "connected"
        <-> mongoCalls
              (snd (handle clock_ms None PlainServer
                      (Submit rq_1 body_A rejecting_primary)
                      world_connected))
            = mongoCalls world_connected ++ [create_call body_A])
    /\ (root_mongodb root = "disconnected"
        <-> mongoCalls
              (snd (handle clock_ms None PlainServer
                      (Submit rq_1 body_A rejecting_primary)
                      world_connected))
            = mongoCalls world_connected).
Proof.
  apply (status_routes_agree_with_submissions clock_ms None PlainServer rq_1
           body_A rejecting_primary world_connected).
  split; reflexivity.
Defined.
